(** * Deprem_Analiz: the regional risk pipeline of [main.py]

    A shallow embedding of [Worker] (fetching, parsing, aggregation, scoring
    and the run itself) and of the start/finish logic of [EarlyWarningApp],
    followed by the properties of the specification that were checked
    against it.  The charting and colouring done with a result, and the two
    catalog readers of [models/config_manager.py] and
    [models/model_handler.py], are embedded after them, with further
    properties of the code at the end.

    Conventions of the embedding:
    - Python values decoded from the catalog's JSON are values of [pyval];
      a dict is the list of its items, looked up by key.
    - Python numbers (int and float alike) are exact rationals [Q]; binary64
      rounding is not modelled.  [statistics.mean] itself sums exact
      fractions, so the model of the mean differs from the code by one final
      rounding only.
    - A raised exception is the [Err] branch of [raises]; stateful code
      threads a [world] (heap of data frames, catalog call counter, emitted
      Qt signals) and keeps the state reached when the exception is raised. *)

From Stdlib Require Import String Ascii List ZArith QArith Qreduction Lia Lqa Bool.
From Stdlib Require Import Permutation DecimalString Qround Qabs.
From stdpp Require Import base list.

Import ListNotations.
Set Warnings "-register-all".
Local Open Scope string_scope.
Local Open Scope list_scope.
Local Open Scope Q_scope.

(** ** Python values and exceptions *)

Inductive pyval : Type :=
| PNone
| PBool (b : bool)
| PNum (q : Q)
| PStr (s : string)
| PList (l : list pyval)
| PDict (items : list (string * pyval))
| PDatetime (secs : Q).

(** The exceptions the modelled code can raise.  [FetchError] stands for
    whatever [requests.get], [raise_for_status] or [response.json] raise;
    [ModelError] for whatever the classifier raises. *)
Inductive exn : Type :=
| KeyError (k : string)
| TypeError
| AttributeError
| IndexError
| ValueError (k : string)
| OverflowError
| OSError
| StatisticsError
| FetchError (code : nat)
| ModelError.

Inductive raises (A : Type) : Type :=
| Ok (a : A)
| Err (e : exn).
Arguments Ok {A} a.
Arguments Err {A} e.

Definition rbind {A B} (r : raises A) (k : A -> raises B) : raises B :=
  match r with
  | Ok a => k a
  | Err e => Err e
  end.

Notation "'let!' x ':=' r 'in' k" := (rbind r (fun x => k))
  (at level 10, x name, r at level 200, k at level 200).

Fixpoint rmap {A B} (f : A -> raises B) (l : list A) : raises (list B) :=
  match l with
  | [] => Ok []
  | x :: l' => let! y := f x in let! ys := rmap f l' in Ok (y :: ys)
  end.

(** ** Dictionaries, sequences and numbers *)

Fixpoint lookup_key (k : string) (items : list (string * pyval)) : option pyval :=
  match items with
  | [] => None
  | (k', v) :: rest => if String.eqb k k' then Some v else lookup_key k rest
  end.

(** [d.get(k, default)]: only a dict has [get]. *)
Definition py_get (d : pyval) (k : string) (default : pyval) : raises pyval :=
  match d with
  | PDict items =>
      match lookup_key k items with
      | Some v => Ok v
      | None => Ok default
      end
  | _ => Err AttributeError
  end.

(** [d[k]] with a string key. *)
Definition py_getitem (d : pyval) (k : string) : raises pyval :=
  match d with
  | PDict items =>
      match lookup_key k items with
      | Some v => Ok v
      | None => Err (KeyError k)
      end
  | _ => Err TypeError
  end.

(** [k in d] for a dict. *)
Definition py_contains (d : pyval) (k : string) : raises bool :=
  match d with
  | PDict items =>
      match lookup_key k items with
      | Some _ => Ok true
      | None => Ok false
      end
  | _ => Err TypeError
  end.

Fixpoint chars (s : string) : list pyval :=
  match s with
  | EmptyString => []
  | String c s' => PStr (String c EmptyString) :: chars s'
  end.

(** What a [for] loop iterates over: the elements of a list, the keys of a
    dict, the characters of a string. *)
Definition py_iter (v : pyval) : raises (list pyval) :=
  match v with
  | PList l => Ok l
  | PDict items => Ok (map (fun kv => PStr (fst kv)) items)
  | PStr s => Ok (chars s)
  | _ => Err TypeError
  end.

Definition py_len (v : pyval) : raises nat :=
  match v with
  | PList l => Ok (length l)
  | PDict items => Ok (length items)
  | PStr s => Ok (String.length s)
  | _ => Err TypeError
  end.

(** [v[i]] with a non-negative integer index.  The keys of a decoded JSON
    object are strings, so an integer never is one of them. *)
Definition py_index (v : pyval) (i : nat) : raises pyval :=
  match v with
  | PList l =>
      match nth_error l i with
      | Some x => Ok x
      | None => Err IndexError
      end
  | PStr s =>
      match nth_error (chars s) i with
      | Some x => Ok x
      | None => Err IndexError
      end
  | PDict _ => Err (KeyError "2")
  | _ => Err TypeError
  end.

(** The numeric value of an int, float or bool ([bool] is a subclass of
    [int]); nothing else is a number. *)
Definition as_number (v : pyval) : option Q :=
  match v with
  | PNum q => Some q
  | PBool true => Some 1
  | PBool false => Some 0
  | _ => None
  end.

Definition is_none (v : pyval) : bool :=
  match v with
  | PNone => true
  | _ => false
  end.

(** [datetime.utcfromtimestamp]: the instant [secs] seconds after the epoch,
    for the years 1 to 9999 it can represent.  The quotient it is called
    with is kept in lowest terms, so that an instant has one
    representation. *)
Definition min_timestamp : Q := (-62135596800)%Z # 1.
Definition max_timestamp : Q := 253402300800%Z # 1.

(** What it raises for an instant outside those years (CPython on 64-bit
    Linux): [ValueError] while [gmtime] can still name the year, [OSError]
    once the year no longer fits a C [int], [OverflowError] once the
    seconds no longer fit [time_t]. *)
Definition timestamp_error (secs : Q) : exn :=
  let s := Qfloor secs in
  if ((-67768040609740800 <=? s) && (s <=? 67768036191676799))%Z
  then ValueError "year"
  else if ((-9223372036854775808 <=? s) && (s <=? 9223372036854775807))%Z
       then OSError
       else OverflowError.

Definition utcfromtimestamp (secs : Q) : raises pyval :=
  if Qle_bool min_timestamp secs && negb (Qle_bool max_timestamp secs)
  then Ok (PDatetime secs)
  else Err (timestamp_error secs).

(** ** [Worker.parse_earthquake_data] *)

Definition event : Type := list (string * pyval).

(** The body of the loop for one [feature]: [Ok None] when the record is
    skipped, [Ok (Some e)] when [e] is appended. *)
Definition parse_feature (feature : pyval) : raises (option event) :=
  let! props := py_get feature "properties" (PDict []) in
  let! geometry := py_get feature "geometry" (PDict []) in
  let! coords := py_get geometry "coordinates" (PList []) in
  let! mag := py_get props "mag" PNone in
  if is_none mag then Ok None
  else
    let! n := py_len coords in
    if (3 <=? n)%nat then
      let! time := py_getitem props "time" in
      let! secs := match as_number time with
              | Some t => utcfromtimestamp (Qred (t / 1000))
              | None => Err TypeError
              end in
      let! mag' := py_getitem props "mag" in
      let! depth := py_index coords 2 in
      let! nst := py_get props "nst" (PNum 0) in
      let! gap := py_get props "gap" (PNum 0) in
      let! dmin := py_get props "dmin" (PNum 0) in
      let! rms := py_get props "rms" (PNum 0) in
      Ok (Some [("time", secs); ("mag", mag'); ("depth", depth);
                ("nst", nst); ("gap", gap); ("dmin", dmin); ("rms", rms)])
    else Ok None.

Fixpoint parse_features (features : list pyval) : raises (list event) :=
  match features with
  | [] => Ok []
  | feature :: rest =>
      let! o := parse_feature feature in
      let! events := parse_features rest in
      Ok (match o with
          | Some e => e :: events
          | None => events
          end)
  end.

Definition parse_earthquake_data (data : pyval) : raises (list event) :=
  let! fs := py_get data "features" (PList []) in
  let! features := py_iter fs in
  parse_features features.

(** ** [statistics.mean] and [Worker.predict_risk] *)

Definition Qsum (l : list Q) : Q := fold_right Qplus 0 l.

Fixpoint numbers (data : list pyval) : option (list Q) :=
  match data with
  | [] => Some []
  | v :: rest =>
      match as_number v, numbers rest with
      | Some q, Some qs => Some (q :: qs)
      | _, _ => None
      end
  end.

(** [statistics.mean(data)]: the exact sum of the data as a fraction in
    lowest terms, divided by their count.  This is the fraction
    [statistics.mean] computes; the code then converts it to a float unless
    it is an integer mean of integers, a rounding that is not modelled and
    that raises [OverflowError] for a mean beyond binary64. *)
Definition statistics_mean (data : list pyval) : raises Q :=
  match data with
  | [] => Err StatisticsError
  | _ =>
      match numbers data with
      | Some qs => Ok (Qred (Qsum qs / inject_Z (Z.of_nat (length qs))))
      | None => Err TypeError
      end
  end.

Definition training_features : list string :=
  ["mag"; "depth"; "nst"; "gap"; "dmin"; "rms"].

(** [e[feat]] for an event. *)
Definition event_field (feat : string) (e : event) : raises pyval :=
  py_getitem (PDict e) feat.

(** One turn of the loop over [training_features]. *)
Definition feature_mean (events : list event) (feat : string) : raises Q :=
  match events with
  | [] => Err IndexError
  | e0 :: _ =>
      let! present := py_contains (PDict e0) feat in
      if (present : bool) then
        let! column := rmap (event_field feat) events in
        statistics_mean column
      else Err (ValueError feat)
  end.

(** The dict [feature_values] after the loop, as its items. *)
Definition feature_values (events : list event) : raises (list (string * Q)) :=
  rmap (fun feat => let! m := feature_mean events feat in Ok (feat, m))
       training_features.

Fixpoint lookup_feature (k : string) (fv : list (string * Q)) : option Q :=
  match fv with
  | [] => None
  | (k', v) :: rest => if String.eqb k k' then Some v else lookup_feature k rest
  end.

(** [pd.DataFrame([feature_values], columns=training_features)]: one row,
    its cells in the order of [training_features]; a column the dict lacks
    holds NaN ([None]). *)
Definition features_df (fv : list (string * Q)) : list (string * option Q) :=
  map (fun c => (c, lookup_feature c fv)) training_features.

Definition nth_or_IndexError {A} (l : list A) (i : nat) : raises A :=
  match nth_error l i with
  | Some x => Ok x
  | None => Err IndexError
  end.

(** ** Data frames, signals and the state a run works in *)

Record province := {
  NAME_1 : string;
  bounds : Q * Q * Q * Q   (* geometry.bounds: minx, miny, maxx, maxy *)
}.

(** The frame of provinces: its rows, and the [risk] column once it has
    been assigned. *)
Record GeoDataFrame := {
  rows : list province;
  risk : option (list Q)
}.

Record bbox := {
  minlatitude : Q;
  maxlatitude : Q;
  minlongitude : Q;
  maxlongitude : Q
}.

Definition TURKEY_BBOX : bbox :=
  {| minlatitude := 36; maxlatitude := 85 # 2;
     minlongitude := 26; maxlongitude := 91 # 2 |}.

(** The query of one request to the catalog. *)
Record params := {
  starttime : Q;
  endtime : Q;
  minmagnitude : Q;
  box : bbox
}.

(** A reference to a frame on the heap. *)
Definition loc : Type := nat.

(** The two texts [Worker.error] is emitted with: the fixed one for an
    empty nationwide result, and "Hesaplama hatasi: " followed by the text
    of the exception. *)
Inductive message : Type :=
| NoEventsFound
| CalculationError (e : exn).

(** The signals of [Worker]. *)
Inductive signal : Type :=
| finished
| error (m : message)
| result (proba : Q) (events : list event) (provs : loc).

Record world := {
  heap : list GeoDataFrame;
  calls : nat;
  emitted : list signal
}.

Definition M (A : Type) : Type := world -> raises A * world.

Definition ret {A} (a : A) : M A := fun w => (Ok a, w).

Definition bind {A B} (c : M A) (k : A -> M B) : M B :=
  fun w =>
    match c w with
    | (Ok a, w') => k a w'
    | (Err e, w') => (Err e, w')
    end.

Notation "'let&' x ':=' c 'in' k" := (bind c (fun x => k))
  (at level 10, x name, c at level 200, k at level 200).

Definition lift {A} (r : raises A) : M A := fun w => (r, w).

Definition emit (s : signal) : M unit :=
  fun w => (Ok tt, {| heap := heap w; calls := calls w;
                      emitted := emitted w ++ [s] |}).

(** [df.copy()]: a new frame with the same contents. *)
Definition frame_copy (l : loc) : M loc :=
  fun w =>
    match heap w !! l with
    | Some df => (Ok (length (heap w)),
                  {| heap := heap w ++ [df]; calls := calls w;
                     emitted := emitted w |})
    | None => (Err AttributeError, w)
    end.

(** The rows [df.iterrows()] goes through. *)
Definition iterrows (l : loc) : M (list province) :=
  fun w =>
    match heap w !! l with
    | Some df => (Ok (rows df), w)
    | None => (Err AttributeError, w)
    end.

(** [df['risk'] = risks]: the whole column at once; pandas refuses a list
    whose length is not the number of rows. *)
Definition frame_set_risk (l : loc) (risks : list Q) : M unit :=
  fun w =>
    match heap w !! l with
    | Some df =>
        if (length risks =? length (rows df))%nat
        then (Ok tt,
              {| heap := <[l := {| rows := rows df; risk := Some risks |}]> (heap w);
                 calls := calls w; emitted := emitted w |})
        else (Err (ValueError "risk"), w)
    | None => (Err AttributeError, w)
    end.

Section Worker.

(** The classifier loaded from the joblib file: [predict_proba] gives, for
    the one-row frame, one row of class probabilities (or raises). *)
Variable predict_proba : list (string * option Q) -> raises (list (list Q)).

Definition predict_risk (events : list event) : raises Q :=
  match events with
  | [] => Ok 0
  | _ =>
      let! fv := feature_values events in
      let! probs := predict_proba (features_df fv) in
      let! row := nth_or_IndexError probs 0 in
      let! p := nth_or_IndexError row 1 in
      Ok (p * 100)
  end.

(** The catalog: what the [n]-th request of the run, made with the given
    query parameters, comes back with -- the decoded JSON body, or the
    exception of [requests.get], [raise_for_status] or [response.json]. *)
Variable catalog : nat -> params -> raises pyval.

Definition fetch_events (start end_ : Q) (bbox : option bbox) : M (list event) :=
  fun w =>
    let query := {| starttime := start; endtime := end_; minmagnitude := 1;
                    box := match bbox with
                           | Some b => b
                           | None => TURKEY_BBOX
                           end |} in
    (let! data := catalog (calls w) query in parse_earthquake_data data,
     {| heap := heap w; calls := S (calls w); emitted := emitted w |}).

(** The fields of a [Worker] besides the classifier. *)
Record Worker := {
  provinces : loc;
  start : Q;
  end_ : Q;
  threshold : Z
}.

Variable self : Worker.

(** The body of the loop over [provs.iterrows()]: the risk of one row. *)
Definition province_risk (row : province) : M Q :=
  let '(minx, miny, maxx, maxy) := bounds row in
  let bbox := {| minlatitude := miny; maxlatitude := maxy;
                 minlongitude := minx; maxlongitude := maxx |} in
  let& evs := fetch_events (start self) (end_ self) (Some bbox) in
  match evs with
  | [] => ret 0
  | _ => lift (predict_risk evs)
  end.

Fixpoint province_risks (rows : list province) : M (list Q) :=
  match rows with
  | [] => ret []
  | row :: rest =>
      let& r := province_risk row in
      let& rs := province_risks rest in
      ret (r :: rs)
  end.

(** The [try] block of [run]. *)
Definition run_try : M unit :=
  let& events := fetch_events (start self) (end_ self) None in
  match events with
  | [] =>
      let& _ := emit (error NoEventsFound) in
      let& _ := emit finished in
      ret tt
  | _ =>
      let& proba := lift (predict_risk events) in
      let& provs := frame_copy (provinces self) in
      let& rows := iterrows provs in
      let& risks := province_risks rows in
      let& _ := frame_set_risk provs risks in
      emit (result proba events provs)
  end.

(** [run]: the [try] block, its [except Exception] handler, and the
    [finally] clause, which runs on every path. *)
Definition run : M unit :=
  fun w =>
    match run_try w with
    | (Ok _, w1) => emit finished w1
    | (Err e, w1) =>
        (let& _ := emit (error (CalculationError e)) in emit finished) w1
    end.

(** *** The requests of a run, read off as pure functions of the catalog

    [fetch_events] only advances the call counter, so what a run fetches
    and scores is a function of the catalog and of the number of the
    request.  [province_risks_sweep] below proves that these are what the
    monadic loop computes. *)

Definition nationwide_query : params :=
  {| starttime := start self; endtime := end_ self; minmagnitude := 1;
     box := TURKEY_BBOX |}.

Definition province_query (row : province) : params :=
  let '(minx, miny, maxx, maxy) := bounds row in
  {| starttime := start self; endtime := end_ self; minmagnitude := 1;
     box := {| minlatitude := miny; maxlatitude := maxy;
               minlongitude := minx; maxlongitude := maxx |} |}.

(** The events request number [n] yields when made with query [q]. *)
Definition fetched (n : nat) (q : params) : raises (list event) :=
  let! data := catalog n q in parse_earthquake_data data.

(** The risk of [row] when its request is request number [n]. *)
Definition province_score (n : nat) (row : province) : raises Q :=
  let! evs := fetched n (province_query row) in
  match evs with
  | [] => Ok 0
  | _ => predict_risk evs
  end.

Fixpoint sweep (n : nat) (rows : list province) : raises (list Q) :=
  match rows with
  | [] => Ok []
  | row :: rest =>
      let! r := province_score n row in
      let! rs := sweep (S n) rest in
      Ok (r :: rs)
  end.

(** The number of requests the sweep makes: it stops at the first row
    whose fetch or score raises. *)
Fixpoint sweep_calls (n : nat) (rows : list province) : nat :=
  match rows with
  | [] => 0
  | row :: rest =>
      match province_score n row with
      | Ok _ => S (sweep_calls (S n) rest)
      | Err _ => 1
      end
  end.

(** The signals a run adds to those emitted before it. *)
Definition delivered (w : world) : list signal :=
  drop (length (emitted w)) (emitted (snd (run w))).

End Worker.

(** ** [EarlyWarningApp]: starting runs and receiving their outcome

    What the main window keeps about its runs: whether the start button is
    enabled, and the worker threads started and not yet finished. *)

Record EarlyWarningApp := {
  analyze_btn_enabled : bool;
  in_flight : nat
}.

(** The window once [__init__] has run: button enabled, timer armed, no
    worker started. *)
Definition app_init : EarlyWarningApp :=
  {| analyze_btn_enabled := true; in_flight := 0 |}.

(** [start_analysis]: disables the button, builds a new [QThread] and
    [Worker] and starts the thread.  Nothing in it looks at a run already
    in flight. *)
Definition start_analysis (a : EarlyWarningApp) : EarlyWarningApp :=
  {| analyze_btn_enabled := false; in_flight := S (in_flight a) |}.

(** [handle_results] and [handle_error] both end by enabling the button;
    the worker that delivered the outcome then finishes. *)
Definition handle_results (a : EarlyWarningApp) : EarlyWarningApp :=
  {| analyze_btn_enabled := true; in_flight := pred (in_flight a) |}.

Definition handle_error (a : EarlyWarningApp) : EarlyWarningApp :=
  {| analyze_btn_enabled := true; in_flight := pred (in_flight a) |}.

(** What reaches the main thread's event loop. *)
Inductive gui_event : Type :=
| button_pressed      (* the user presses "Analiz Baslat" *)
| timer_timeout       (* the 600000 ms QTimer fires *)
| worker_result       (* a worker's [result] signal arrives *)
| worker_error.       (* a worker's [error] signal arrives *)

(** Both [analyze_btn.clicked] and [timer.timeout] are connected to
    [start_analysis]; a disabled button emits no [clicked]. *)
Definition dispatch (a : EarlyWarningApp) (ev : gui_event) : EarlyWarningApp :=
  match ev with
  | button_pressed => if analyze_btn_enabled a then start_analysis a else a
  | timer_timeout => start_analysis a
  | worker_result => handle_results a
  | worker_error => handle_error a
  end.

Definition dispatch_all (a : EarlyWarningApp) (evs : list gui_event) : EarlyWarningApp :=
  fold_left dispatch evs a.

(** ** Vocabulary of the statements *)

(** The outcome signals of a run: [result] and [error], not [finished]. *)
Definition is_outcome (s : signal) : bool :=
  match s with
  | finished => false
  | error _ => true
  | result _ _ _ => true
  end.

Definition is_result (s : signal) : bool :=
  match s with
  | result _ _ _ => true
  | _ => false
  end.

(** A classifier whose positive-class output is a probability: whenever it
    answers, entry 1 of the first row lies between 0 and 1. *)
Definition probability_classifier
    (predict_proba : list (string * option Q) -> raises (list (list Q))) : Prop :=
  forall x probs row p,
    predict_proba x = Ok probs ->
    nth_error probs 0 = Some row ->
    nth_error row 1 = Some p ->
    0 <= p /\ p <= 1.

(** The arithmetic mean, as the specification words it: the sum of the
    values divided by their number. *)
Definition arithmetic_mean (qs : list Q) : Q :=
  Qsum qs / inject_Z (Z.of_nat (length qs)).

(** The numeric value an event carries for a feature. *)
Definition field_value (feat : string) (e : event) : Q :=
  match lookup_key feat e with
  | Some v =>
      match as_number v with
      | Some q => q
      | None => 0
      end
  | None => 0
  end.

(** An event in the sense of the data model: each of the six features is
    present and is a number. *)
Definition numeric_event (e : event) : bool :=
  forallb (fun feat =>
             match lookup_key feat e with
             | Some v =>
                 match as_number v with
                 | Some _ => true
                 | None => false
                 end
             | None => false
             end) training_features.

(** The properties and the coordinates of a raw record. *)
Definition record_properties (feature : pyval) : list (string * pyval) :=
  match feature with
  | PDict items =>
      match lookup_key "properties" items with
      | Some (PDict props) => props
      | _ => []
      end
  | _ => []
  end.

Definition record_coordinates (feature : pyval) : list pyval :=
  match feature with
  | PDict items =>
      match lookup_key "geometry" items with
      | Some (PDict geometry) =>
          match lookup_key "coordinates" geometry with
          | Some (PList coords) => coords
          | _ => []
          end
      | _ => []
      end
  | _ => []
  end.

(** A record of the GeoJSON shape: an object whose [properties] and
    [geometry] are objects and whose [coordinates] are a list. *)
Definition geojson_shaped (feature : pyval) : bool :=
  match feature with
  | PDict items =>
      match lookup_key "properties" items, lookup_key "geometry" items with
      | Some (PDict _), Some (PDict geometry) =>
          match lookup_key "coordinates" geometry with
          | Some (PList _) => true
          | _ => false
          end
      | _, _ => false
      end
  | _ => false
  end.

(** The record has a magnitude: the key is there and is not [null]. *)
Definition has_magnitude (feature : pyval) : bool :=
  match lookup_key "mag" (record_properties feature) with
  | Some v => negb (is_none v)
  | None => false
  end.

(** The record has a [time] that is a number of milliseconds
    [utcfromtimestamp] accepts. *)
Definition usable_time (feature : pyval) : option Q :=
  match lookup_key "time" (record_properties feature) with
  | Some v =>
      match as_number v with
      | Some t =>
          if Qle_bool min_timestamp (Qred (t / 1000))
             && negb (Qle_bool max_timestamp (Qred (t / 1000)))
          then Some (Qred (t / 1000)) else None
      | None => None
      end
  | None => None
  end.

(** A record the parser copes with: of the GeoJSON shape and, when it has a
    magnitude and three coordinates, with a usable [time]. *)
Definition regular_record (feature : pyval) : bool :=
  geojson_shaped feature
  && (negb (has_magnitude feature
            && (3 <=? length (record_coordinates feature))%nat)
      || match usable_time feature with
         | Some _ => true
         | None => false
         end).

(** What [props.get(k, 0)] leaves in the event: the value of the key, or
    zero when the record lacks the key. *)
Definition ancillary (k : string) (feature : pyval) : pyval :=
  match lookup_key k (record_properties feature) with
  | Some v => v
  | None => PNum 0
  end.

(** ** Sample inputs, used to run the definitions *)

Definition sample_record (mag time depth : Q) : pyval :=
  PDict [("type", PStr "Feature");
         ("properties",
          PDict [("mag", PNum mag); ("place", PStr "Ankara");
                 ("time", PNum time); ("nst", PNum 12); ("gap", PNum 90);
                 ("dmin", PNum (1 # 2)); ("rms", PNum (3 # 4))]);
         ("geometry",
          PDict [("type", PStr "Point");
                 ("coordinates", PList [PNum 33; PNum 39; PNum depth])])].

(** A record with magnitude and three coordinates and nothing else: no
    [time], none of the ancillary fields. *)
Definition record_without_time : pyval :=
  PDict [("properties", PDict [("mag", PNum 4)]);
         ("geometry", PDict [("coordinates", PList [PNum 33; PNum 39; PNum 10])])].

(** The same record with a [time]; the ancillary fields are still absent. *)
Definition bare_record : pyval :=
  PDict [("properties", PDict [("mag", PNum 4); ("time", PNum 1700000000000)]);
         ("geometry", PDict [("coordinates", PList [PNum 33; PNum 39; PNum 10])])].

(** A record whose [geometry] is [null], as GeoJSON allows for an event
    that has not been located. *)
Definition record_null_geometry : pyval :=
  PDict [("properties", PDict [("mag", PNum 4); ("time", PNum 1700000000000)]);
         ("geometry", PNone)].

Definition collection (features : list pyval) : pyval :=
  PDict [("type", PStr "FeatureCollection"); ("features", PList features)].

Definition sample_collection : pyval :=
  collection [sample_record 4 1700000000000 10; sample_record 5 1700000060000 7].

Definition sample_events : list event :=
  [[("time", PDatetime 1700000000); ("mag", PNum 4); ("depth", PNum 10);
    ("nst", PNum 12); ("gap", PNum 90); ("dmin", PNum (1 # 2));
    ("rms", PNum (3 # 4))];
   [("time", PDatetime 1700000060); ("mag", PNum 5); ("depth", PNum 7);
    ("nst", PNum 12); ("gap", PNum 90); ("dmin", PNum (1 # 2));
    ("rms", PNum (3 # 4))]].

(** A classifier that answers every row with the probabilities 1/4, 3/4. *)
Definition sample_classifier (row : list (string * option Q)) : raises (list (list Q)) :=
  Ok [[1 # 4; 3 # 4]].

Definition sample_provinces : GeoDataFrame :=
  {| rows := [ {| NAME_1 := "Ankara"; bounds := (31, 39, 34, 41) |};
               {| NAME_1 := "Izmir"; bounds := (26, 38, 28, 39) |};
               {| NAME_1 := "Van"; bounds := (42, 38, 44, 39) |} ];
     risk := None |}.

Definition sample_worker : Worker :=
  {| provinces := 0%nat; start := 1700000000; end_ := 1702592000;
     threshold := 50%Z |}.

Definition sample_world : world :=
  {| heap := [sample_provinces]; calls := 0; emitted := [] |}.

(** A catalog that answers every request; the third request of the run
    (the second province) finds no events. *)
Definition catalog_up (n : nat) (q : params) : raises pyval :=
  if (n =? 2)%nat then Ok (collection []) else Ok sample_collection.

(** A catalog whose third request fails with status 503. *)
Definition catalog_one_down (n : nat) (q : params) : raises pyval :=
  if (n =? 2)%nat then Err (FetchError 503) else Ok sample_collection.

(** A catalog whose second request (the first province) times out. *)
Definition catalog_first_province_down (n : nat) (q : params) : raises pyval :=
  if (n =? 1)%nat then Err (FetchError 0) else Ok sample_collection.

(** ** What a run leaves behind

    [run_post w w'] lists the three ways a run started in [w] can end: the
    nationwide fetch found nothing; something raised and the handler of
    [run] reported it (by then the frame may or may not have been copied);
    or everything succeeded and the result was emitted.  [run_failure]
    lists what can raise, with the frames allocated by then.  [run_ends]
    proves that every run ends in one of these ways. *)

Inductive run_failure (predict_proba : list (string * option Q) -> raises (list (list Q)))
    (catalog : nat -> params -> raises pyval) (self : Worker) (w : world)
  : exn -> list GeoDataFrame -> Prop :=
| fetch_failed e :
    fetched catalog (calls w) (nationwide_query self) = Err e ->
    run_failure predict_proba catalog self w e []
| score_failed evs e :
    fetched catalog (calls w) (nationwide_query self) = Ok evs ->
    evs <> [] ->
    predict_risk predict_proba evs = Err e ->
    run_failure predict_proba catalog self w e []
| frame_missing evs proba :
    fetched catalog (calls w) (nationwide_query self) = Ok evs ->
    evs <> [] ->
    predict_risk predict_proba evs = Ok proba ->
    heap w !! provinces self = None ->
    run_failure predict_proba catalog self w AttributeError []
| sweep_failed evs proba df e :
    fetched catalog (calls w) (nationwide_query self) = Ok evs ->
    evs <> [] ->
    predict_risk predict_proba evs = Ok proba ->
    heap w !! provinces self = Some df ->
    sweep predict_proba catalog self (S (calls w)) (rows df) = Err e ->
    run_failure predict_proba catalog self w e [df].

Inductive run_post (predict_proba : list (string * option Q) -> raises (list (list Q)))
    (catalog : nat -> params -> raises pyval) (self : Worker) (w : world)
  : world -> Prop :=
| post_no_events c :
    fetched catalog (calls w) (nationwide_query self) = Ok [] ->
    run_post predict_proba catalog self w
      {| heap := heap w; calls := c;
         emitted := emitted w ++ [error NoEventsFound; finished; finished] |}
| post_failed e extra c :
    run_failure predict_proba catalog self w e extra ->
    run_post predict_proba catalog self w
      {| heap := heap w ++ extra; calls := c;
         emitted := emitted w ++ [error (CalculationError e); finished] |}
| post_succeeded evs proba df risks c :
    fetched catalog (calls w) (nationwide_query self) = Ok evs ->
    evs <> [] ->
    predict_risk predict_proba evs = Ok proba ->
    heap w !! provinces self = Some df ->
    sweep predict_proba catalog self (S (calls w)) (rows df) = Ok risks ->
    run_post predict_proba catalog self w
      {| heap := heap w ++ [{| rows := rows df; risk := Some risks |}];
         calls := c;
         emitted := emitted w ++ [result proba evs (length (heap w)); finished] |}.

(** ** The rest of [main.py]: what the events are used for *)

(** The keys of the dict [parse_earthquake_data] builds, in its order. *)
Definition event_keys : list string :=
  ["time"; "mag"; "depth"; "nst"; "gap"; "dmin"; "rms"].

(** The shape of an event the parser has built: the seven keys, a datetime
    under [time], and a magnitude that is not [None]. *)
Definition parsed_event (e : event) : Prop :=
  map fst e = event_keys /\
  (exists secs, lookup_key "time" e = Some (PDatetime secs)) /\
  (exists mag, lookup_key "mag" e = Some mag /\ is_none mag = false).

(** The value an event holds under a key, whatever it is. *)
Definition raw_value (feat : string) (e : event) : pyval :=
  match lookup_key feat e with
  | Some v => v
  | None => PNone
  end.

(** [PlotCanvas.plot_timeseries]: the two series it builds from the events
    and hands to [axes.plot_date]; the drawing itself is matplotlib's. *)
Definition plot_timeseries (events : list event) : raises (list pyval * list pyval) :=
  let! times := rmap (event_field "time") events in
  let! mags := rmap (event_field "mag") events in
  Ok (times, mags).

(** [handle_results]: the colour of the risk label, from the overall risk
    and the value the slider has when the result arrives. *)
Definition risk_colour (proba : Q) (threshold : Z) : string :=
  if Qle_bool (inject_Z threshold) proba then "#e74c3c" else "#2ecc71".

(** A record as the catalog sends most of them: the ancillary fields are
    there, [nst] and [dmin] are [null]. *)
Definition record_null_nst : pyval :=
  PDict [("properties",
          PDict [("mag", PNum 3); ("time", PNum 1700000120000);
                 ("nst", PNone); ("gap", PNum 120); ("dmin", PNone);
                 ("rms", PNum (1 # 2))]);
         ("geometry", PDict [("coordinates", PList [PNum 30; PNum 38; PNum 5])])].

(** A catalog that answers as [catalog_up] except for the last province. *)
Definition catalog_up_elsewhere (n : nat) (q : params) : raises pyval :=
  if (n =? 2)%nat then Ok (collection [])
  else if (n =? 3)%nat then Ok (collection [bare_record])
  else Ok sample_collection.


(** ** [models/config_manager.py] and [models/model_handler.py]

    The two other readers of the catalog.  An HTTP response is its status
    and what [response.json()] gives; [http] stands for [requests.get],
    called with the URL and the query. *)


(** [v[i]] for any subscriptable value; a dict decoded from JSON has no
    integer key. *)
Definition py_subscript (v : pyval) (i : nat) : raises pyval :=
  match v with
  | PDict _ => Err (KeyError (NilZero.string_of_uint (Nat.to_uint i)))
  | _ => py_index v i
  end.

(** [datetime.utcfromtimestamp(t / 1000)] for any value [t]. *)
Definition timestamp_of_millis (t : pyval) : raises pyval :=
  match as_number t with
  | Some ms => utcfromtimestamp (Qred (ms / 1000))
  | None => Err TypeError
  end.


Module ConfigManager.

Definition default_config : pyval :=
  PDict [("settings",
          PDict [("model_path", PStr "models/random_forest_turkey_10yr.joblib");
                 ("usgs_api",
                  PStr "https://earthquake.usgs.gov/fdsnws/event/1/query.geojson");
                 ("turkey_bbox", PStr "35.5,25.5,42.5,44.5");
                 ("min_magnitude", PNum 2);
                 ("days_history", PNum 30);
                 ("alert_threshold", PNum (65 # 100));
                 ("graphical_geometry", PNum 1775)])].

(** [load]: the configuration file is absent ([None]), or there and either
    decoded by [json.load] or the cause of an exception; anything but a
    decoded file gives the defaults. *)
Definition load (file : option (raises pyval)) : pyval :=
  match file with
  | Some (Ok config) => config
  | _ => default_config
  end.


(** The body of the loop of [_parse_quake_data]. *)
Definition quake_row (feature : pyval) : raises event :=
  let! props := py_getitem feature "properties" in
  let! geometry := py_getitem feature "geometry" in
  let! coords := py_getitem geometry "coordinates" in
  let! time := py_getitem props "time" in
  let! timestamp := timestamp_of_millis time in
  let! latitude := py_subscript coords 1 in
  let! longitude := py_subscript coords 0 in
  let! depth_km := py_subscript coords 2 in
  let! magnitude := py_getitem props "mag" in
  let! location := py_getitem props "place" in
  let! id := py_getitem feature "id" in
  Ok [("timestamp", timestamp); ("latitude", latitude);
      ("longitude", longitude); ("depth_km", depth_km);
      ("magnitude", magnitude); ("location", location); ("id", id)].

(** [_parse_quake_data]: the rows of the frame it returns. *)
Definition _parse_quake_data (features : pyval) : raises (list event) :=
  let! fs := py_iter features in
  rmap quake_row fs.


End ConfigManager.

Module EarthquakePredictor.

(** The body of the loop of [_parse_data]. *)
Definition data_row (feature : pyval) : raises event :=
  let! props := py_getitem feature "properties" in
  let! geometry := py_getitem feature "geometry" in
  let! coords := py_getitem geometry "coordinates" in
  let! time := py_getitem props "time" in
  let! timestamp := timestamp_of_millis time in
  let! latitude := py_subscript coords 1 in
  let! longitude := py_subscript coords 0 in
  let! depth_km := py_subscript coords 2 in
  let! magnitude := py_getitem props "mag" in
  let! location := py_getitem props "place" in
  Ok [("timestamp", timestamp); ("latitude", latitude);
      ("longitude", longitude); ("depth_km", depth_km);
      ("magnitude", magnitude); ("location", location)].

(** [_parse_data]: the rows of the frame it returns. *)
Definition _parse_data (features : pyval) : raises (list event) :=
  let! fs := py_iter features in
  rmap data_row fs.


(** [max(1, int(len(raw_data) / (self.resolution / 1000)))], for a
    resolution that is a positive integer, as the default 1775 is, with the
    quotient taken exactly.  The code takes it in binary64, rounding twice,
    which can make its step smaller by one where the exact quotient is an
    integer (14 for 15 at resolution 8800 and 132 rows). *)
Definition step_size (resolution : positive) (n : nat) : nat :=
  Nat.max 1 (Z.to_nat ((Z.of_nat n * 1000) / Zpos resolution)).

(** [rows[::step]] with the next [skip] rows left out first. *)
Fixpoint every_nth {A} (step skip : nat) (rows : list A) : list A :=
  match rows with
  | [] => []
  | row :: rest =>
      match skip with
      | O => row :: every_nth step (pred step) rest
      | S skip' => every_nth step skip' rest
      end
  end.

(** [optimize_visualization]: the rows of [raw_data.iloc[::step_size]]. *)
Definition optimize_visualization {A} (resolution : positive) (raw_data : list A)
  : list A :=
  match raw_data with
  | [] => []
  | _ => every_nth (step_size resolution (length raw_data)) 0 raw_data
  end.

End EarthquakePredictor.


(** A record with everything the two frame parsers index, its magnitude
    being [null]. *)
Definition record_null_mag : pyval :=
  PDict [("id", PStr "us7000abcd");
         ("properties",
          PDict [("mag", PNone); ("place", PStr "Van"); ("time", PNum 1700000000000)]);
         ("geometry", PDict [("coordinates", PList [PNum 43; PNum 38; PNum 8])])].


(** A catalog that answers as [catalog_up] when asked for magnitudes from 1
    up, and refuses any other query. *)
Definition catalog_up_floor_one (n : nat) (q : params) : raises pyval :=
  if Qeq_bool (minmagnitude q) 1 then catalog_up n q else Err (FetchError 400).



(** * Properties *)

(** ** Computations that may raise *)

Lemma rmap_ok_map {A B} (f : A -> raises B) (g : A -> B) (l : list A) :
  (forall x, In x l -> f x = Ok (g x)) -> rmap f l = Ok (map g l).
Proof.
  induction l as [|x l IH]; intros H; simpl; [reflexivity|].
  rewrite (H x (or_introl eq_refl)); simpl.
  rewrite IH; [reflexivity|].
  intros y Hy. apply H. right. exact Hy.
Qed.

(** ** Sums and means *)

Lemma Qsum_perm (l l' : list Q) : Permutation l l' -> Qsum l == Qsum l'.
Proof.
  induction 1 as [|x l l' _ IH|x y l|l l' l'' _ IH1 _ IH2]; simpl.
  - reflexivity.
  - rewrite IH. reflexivity.
  - rewrite !Qplus_assoc, (Qplus_comm y x). reflexivity.
  - rewrite IH1. exact IH2.
Qed.

Lemma arithmetic_mean_perm (l l' : list Q) :
  Permutation l l' -> arithmetic_mean l == arithmetic_mean l'.
Proof.
  intros H. unfold arithmetic_mean.
  rewrite (Qsum_perm _ _ H), (Permutation_length H). reflexivity.
Qed.

Lemma numbers_field_values (feat : string) (events : list event) :
  forallb numeric_event events = true ->
  In feat training_features ->
  exists column,
    rmap (event_field feat) events = Ok column /\
    numbers column = Some (map (field_value feat) events).
Proof.
  intros Hnum Hin.
  induction events as [|e events IH]; simpl.
  - exists []. split; reflexivity.
  - simpl in Hnum. apply andb_prop in Hnum. destruct Hnum as [He Hrest].
    destruct (IH Hrest) as (column & Hcol & Hnums).
    unfold numeric_event in He. rewrite forallb_forall in He.
    specialize (He feat Hin).
    unfold event_field at 1, py_getitem, field_value at 1.
    destruct (lookup_key feat e) as [v|]; [|discriminate].
    simpl. rewrite Hcol. simpl.
    exists (v :: column). split; [reflexivity|].
    simpl. destruct (as_number v) as [q|]; [|discriminate].
    rewrite Hnums. reflexivity.
Qed.

Lemma feature_mean_numeric (feat : string) (events : list event) :
  events <> [] ->
  forallb numeric_event events = true ->
  In feat training_features ->
  feature_mean events feat
  = Ok (Qred (arithmetic_mean (map (field_value feat) events))).
Proof.
  intros Hne Hnum Hin.
  destruct (numbers_field_values feat events Hnum Hin) as (column & Hcol & Hnums).
  destruct events as [|e0 rest]; [congruence|].
  unfold feature_mean. rewrite Hcol.
  assert (Hpresent : py_contains (PDict e0) feat = Ok true).
  { simpl in Hnum. apply andb_prop in Hnum. destruct Hnum as [He _].
    unfold numeric_event in He. rewrite forallb_forall in He.
    specialize (He feat Hin). unfold py_contains.
    destruct (lookup_key feat e0); [reflexivity|discriminate]. }
  rewrite Hpresent. simpl.
  unfold statistics_mean. rewrite Hnums.
  destruct column as [|v column]; [discriminate|].
  unfold arithmetic_mean. reflexivity.
Qed.

Lemma feature_values_numeric (events : list event) :
  events <> [] ->
  forallb numeric_event events = true ->
  feature_values events
  = Ok (map (fun feat =>
               (feat, Qred (arithmetic_mean (map (field_value feat) events))))
            training_features).
Proof.
  intros Hne Hnum. unfold feature_values.
  apply rmap_ok_map. intros feat Hin.
  rewrite (feature_mean_numeric feat events Hne Hnum Hin). reflexivity.
Qed.

Lemma numeric_events_perm (events events' : list event) :
  Permutation events events' ->
  forallb numeric_event events = true ->
  forallb numeric_event events' = true.
Proof.
  intros Hperm H. rewrite forallb_forall in *.
  intros e He. apply H. apply (Permutation_in e (Permutation_sym Hperm) He).
Qed.

Lemma feature_values_perm (events events' : list event) :
  events <> [] ->
  forallb numeric_event events = true ->
  Permutation events events' ->
  feature_values events' = feature_values events.
Proof.
  intros Hne Hnum Hperm.
  assert (Hne' : events' <> []).
  { intros ->. apply Permutation_sym, Permutation_nil in Hperm. congruence. }
  rewrite (feature_values_numeric events Hne Hnum).
  rewrite (feature_values_numeric events' Hne'
             (numeric_events_perm _ _ Hperm Hnum)).
  f_equal. apply map_ext. intros feat. f_equal.
  apply Qred_complete, arithmetic_mean_perm, Permutation_map.
  apply Permutation_sym, Hperm.
Qed.

(** The aggregation where it does succeed.  For every non-empty list of
    events whose six features are numbers (and in the exact arithmetic of
    this file), the aggregation inside [predict_risk] yields the vector
    (mag, depth, nst, gap, dmin, rms), in that order, each entry being the
    arithmetic mean of that field over the events; that vector is what the
    classifier is called with, and it is the same for every permutation of
    the list. *)
Theorem aggregation_is_fieldwise_mean (events : list event) :
  events <> [] ->
  forallb numeric_event events = true ->
  exists m_mag m_depth m_nst m_gap m_dmin m_rms : Q,
    feature_values events
    = Ok [("mag", m_mag); ("depth", m_depth); ("nst", m_nst);
          ("gap", m_gap); ("dmin", m_dmin); ("rms", m_rms)] /\
    (forall predict_proba,
       predict_risk predict_proba events
       = let! probs := predict_proba
                         [("mag", Some m_mag); ("depth", Some m_depth);
                          ("nst", Some m_nst); ("gap", Some m_gap);
                          ("dmin", Some m_dmin); ("rms", Some m_rms)] in
         let! row := nth_or_IndexError probs 0 in
         let! p := nth_or_IndexError row 1 in
         Ok (p * 100)) /\
    m_mag == arithmetic_mean (map (field_value "mag") events) /\
    m_depth == arithmetic_mean (map (field_value "depth") events) /\
    m_nst == arithmetic_mean (map (field_value "nst") events) /\
    m_gap == arithmetic_mean (map (field_value "gap") events) /\
    m_dmin == arithmetic_mean (map (field_value "dmin") events) /\
    m_rms == arithmetic_mean (map (field_value "rms") events) /\
    (forall events', Permutation events events' ->
       feature_values events' = feature_values events).
Proof.
  intros Hne Hnum.
  pose proof (feature_values_numeric events Hne Hnum) as Hfv.
  simpl in Hfv.
  do 6 eexists. split; [exact Hfv|]. split.
  - intros predict_proba. unfold predict_risk.
    destruct events as [|e0 rest]; [congruence|].
    rewrite Hfv. reflexivity.
  - repeat split; try apply Qred_correct.
    intros events' Hperm. apply feature_values_perm; assumption.
Qed.

Lemma aggregation_is_fieldwise_mean_witness :
  exists m_mag m_depth m_nst m_gap m_dmin m_rms : Q,
    feature_values sample_events
    = Ok [("mag", m_mag); ("depth", m_depth); ("nst", m_nst);
          ("gap", m_gap); ("dmin", m_dmin); ("rms", m_rms)] /\
    m_mag == 9 # 2 /\ m_depth == 17 # 2.
Proof.
  destruct (aggregation_is_fieldwise_mean sample_events)
    as (m_mag & m_depth & m_nst & m_gap & m_dmin & m_rms
        & Hfv & _ & Hmag & Hdepth & _).
  - discriminate.
  - reflexivity.
  - exists m_mag, m_depth, m_nst, m_gap, m_dmin, m_rms.
    split; [exact Hfv|]. split.
    + rewrite Hmag. reflexivity.
    + rewrite Hdepth. reflexivity.
Defined.

(** C6: the code at an event list it should aggregate.  The response holds
    two records with magnitude, time and coordinates, the second with
    [null] under nst and dmin, as the catalog sends them.  Both are parsed
    into events, the [null]s kept as [None]; the mean of the magnitudes is
    computed, but that of nst raises [TypeError], so no feature vector is
    returned and scoring the list raises too. *)
Theorem null_field_breaks_aggregation :
  exists events,
    parse_earthquake_data
      (collection [sample_record 4 1700000000000 10; record_null_nst])
    = Ok events /\
    length events = 2%nat /\
    feature_mean events "mag" = Ok (7 # 2) /\
    feature_mean events "nst" = Err TypeError /\
    feature_values events = Err TypeError /\
    predict_risk sample_classifier events = Err TypeError.
Proof.
  eexists. split; [vm_compute; reflexivity|].
  repeat split; vm_compute; reflexivity.
Qed.

(** ** The regional sweep *)

Section Run.

Variable predict_proba : list (string * option Q) -> raises (list (list Q)).
Variable catalog : nat -> params -> raises pyval.
Variable self : Worker.

Lemma province_risk_score (row : province) (w : world) :
  province_risk predict_proba catalog self row w
  = (province_score predict_proba catalog self (calls w) row,
     {| heap := heap w; calls := S (calls w); emitted := emitted w |}).
Proof.
  unfold province_risk, province_score, province_query, fetched.
  destruct (bounds row) as [[[minx miny] maxx] maxy].
  unfold bind, fetch_events. simpl.
  destruct (catalog (calls w) _) as [data|e]; simpl; [|reflexivity].
  destruct (parse_earthquake_data data) as [[|ev evs]|e]; reflexivity.
Qed.

Lemma province_risks_sweep (rows : list province) (w : world) :
  province_risks predict_proba catalog self rows w
  = (sweep predict_proba catalog self (calls w) rows,
     {| heap := heap w;
        calls := calls w + sweep_calls predict_proba catalog self (calls w) rows;
        emitted := emitted w |}).
Proof.
  revert w. induction rows as [|row rest IH]; intros w.
  - destruct w as [h c t]. simpl. unfold ret. simpl.
    rewrite Nat.add_0_r. reflexivity.
  - cbn [province_risks sweep sweep_calls]. unfold bind at 1.
    rewrite province_risk_score.
    destruct (province_score predict_proba catalog self (calls w) row)
      as [r|e]; simpl.
    + unfold bind. rewrite IH. simpl.
      destruct (sweep predict_proba catalog self (S (calls w)) rest);
        simpl; unfold ret; repeat f_equal; lia.
    + repeat f_equal. lia.
Qed.

Lemma sweep_length (n : nat) (rows : list province) (risks : list Q) :
  sweep predict_proba catalog self n rows = Ok risks ->
  length risks = length rows.
Proof.
  revert n risks. induction rows as [|row rest IH]; intros n risks; simpl.
  - intros [= <-]. reflexivity.
  - destruct (province_score _ _ _ n row) as [r|e]; simpl; [|discriminate].
    destruct (sweep _ _ _ (S n) rest) as [rs|e] eqn:Hrest; simpl;
      [|discriminate].
    intros [= <-]. simpl. f_equal. apply (IH (S n)). exact Hrest.
Qed.

(** Entry [k] of a completed sweep is the score of row [k], computed from
    request [n + k]. *)
Lemma sweep_lookup (n : nat) (rows : list province) (risks : list Q)
      (k : nat) (row : province) :
  sweep predict_proba catalog self n rows = Ok risks ->
  rows !! k = Some row ->
  exists r, risks !! k = Some r /\
            province_score predict_proba catalog self (n + k) row = Ok r.
Proof.
  revert n risks k. induction rows as [|row0 rest IH]; intros n risks k; simpl.
  - intros _ Hk. discriminate.
  - destruct (province_score _ _ _ n row0) as [r0|e] eqn:H0; simpl;
      [|discriminate].
    destruct (sweep _ _ _ (S n) rest) as [rs|e] eqn:Hrest; simpl;
      [|discriminate].
    intros [= <-] Hk. destruct k as [|k]; simpl in *.
    + injection Hk as <-. exists r0. rewrite Nat.add_0_r. auto.
    + destruct (IH (S n) rs k Hrest Hk) as (r & Hr & Hs).
      exists r. split; [exact Hr|].
      replace (n + S k)%nat with (S n + k)%nat by lia. exact Hs.
Qed.

(** A sweep completes when every row can be scored. *)
Lemma sweep_complete (n : nat) (rows : list province) :
  (forall k row, rows !! k = Some row ->
     exists r, province_score predict_proba catalog self (n + k) row = Ok r) ->
  exists risks, sweep predict_proba catalog self n rows = Ok risks.
Proof.
  revert n. induction rows as [|row0 rest IH]; intros n H; simpl.
  - exists []. reflexivity.
  - destruct (H 0%nat row0 eq_refl) as (r0 & H0).
    rewrite Nat.add_0_r in H0. rewrite H0. simpl.
    destruct (IH (S n)) as (rs & Hrs).
    + intros k row Hk. destruct (H (S k) row Hk) as (r & Hr).
      exists r. replace (S n + k)%nat with (n + S k)%nat by lia. exact Hr.
    + rewrite Hrs. simpl. eauto.
Qed.

(** A request of the sweep that fails makes the sweep fail. *)
Lemma sweep_fetch_failure (n k : nat) (rows : list province) (e : exn) :
  (k < length rows)%nat ->
  (forall q, catalog (n + k) q = Err e) ->
  exists e', sweep predict_proba catalog self n rows = Err e'.
Proof.
  intros Hk Hfail.
  destruct (sweep predict_proba catalog self n rows) as [risks|e'] eqn:Hs;
    [|eauto].
  destruct (lookup_lt_is_Some_2 rows k Hk) as (row & Hrow).
  destruct (sweep_lookup n rows risks k row Hs Hrow) as (r & _ & Hscore).
  unfold province_score, fetched in Hscore. rewrite Hfail in Hscore.
  discriminate.
Qed.

End Run.

(** ** Every run ends in one of the three ways of [run_post] *)

Lemma run_ends predict_proba catalog (self : Worker) (w : world) :
  exists w',
    run predict_proba catalog self w = (Ok tt, w') /\
    run_post predict_proba catalog self w w'.
Proof.
  unfold run, run_try. unfold bind at 1. unfold fetch_events at 1.
  fold (nationwide_query self).
  fold (fetched catalog (calls w) (nationwide_query self)).
  destruct (fetched catalog (calls w) (nationwide_query self))
    as [[|ev evs]|e] eqn:Hfetch.
  - (* no events *)
    eexists. split; [reflexivity|]. simpl.
    rewrite <- ?app_assoc. simpl. apply post_no_events. exact Hfetch.
  - (* events: score them *)
    unfold bind at 1, lift at 1.
    destruct (predict_risk predict_proba (ev :: evs)) as [proba|e] eqn:Hproba.
    2:{ eexists. split; [reflexivity|]. simpl.
        rewrite <- ?app_assoc. simpl.
        rewrite <- (app_nil_r (heap w)) at 1.
        apply post_failed.
        apply (score_failed _ _ _ _ (ev :: evs)); [exact Hfetch|discriminate|exact Hproba]. }
    unfold bind at 1, frame_copy at 1. cbn [heap calls emitted].
    destruct (heap w !! provinces self) as [df|] eqn:Hdf.
    2:{ eexists. split; [reflexivity|]. simpl.
        rewrite <- ?app_assoc. simpl.
        rewrite <- (app_nil_r (heap w)) at 1.
        apply post_failed.
        apply (frame_missing _ _ _ _ (ev :: evs) proba);
          [exact Hfetch|discriminate|exact Hproba|exact Hdf]. }
    unfold bind at 1, iterrows at 1. cbn [heap calls emitted].
    rewrite list_lookup_middle by reflexivity.
    unfold bind at 1. rewrite province_risks_sweep. cbn [heap calls emitted].
    destruct (sweep predict_proba catalog self (S (calls w)) (rows df))
      as [risks|e] eqn:Hsweep.
    2:{ eexists. split; [reflexivity|]. simpl.
        rewrite <- ?app_assoc. simpl.
        apply post_failed.
        apply (sweep_failed _ _ _ _ (ev :: evs) proba);
          [exact Hfetch|discriminate|exact Hproba|exact Hdf|exact Hsweep]. }
    unfold bind at 1, frame_set_risk at 1. cbn [heap calls emitted].
    rewrite list_lookup_middle by reflexivity.
    rewrite (sweep_length _ _ _ _ _ _ Hsweep), Nat.eqb_refl.
    eexists. split; [reflexivity|]. simpl.
    rewrite <- ?app_assoc. simpl.
    replace (<[length (heap w) := {| rows := rows df; risk := Some risks |}]>
               (heap w ++ [df]))
      with (heap w ++ [{| rows := rows df; risk := Some risks |}]).
    + apply post_succeeded; [exact Hfetch|discriminate|exact Hproba|exact Hdf|exact Hsweep].
    + pose proof (insert_app_r (heap w) [df] 0
                    {| rows := rows df; risk := Some risks |}) as Hins.
      rewrite Nat.add_0_r in Hins. rewrite Hins. reflexivity.
  - (* the nationwide fetch raised *)
    eexists. split; [reflexivity|]. simpl.
    rewrite <- ?app_assoc. simpl.
    rewrite <- (app_nil_r (heap w)) at 1.
    apply post_failed. apply fetch_failed. exact Hfetch.
Qed.

Lemma run_emitted predict_proba catalog (self : Worker) (w : world) :
  emitted (snd (run predict_proba catalog self w))
  = emitted w ++ delivered predict_proba catalog self w.
Proof.
  unfold delivered.
  destruct (run_ends predict_proba catalog self w) as (w' & Hrun & Hpost).
  rewrite Hrun. simpl.
  destruct Hpost; simpl; rewrite drop_app_length; reflexivity.
Qed.

(** The signals of a run, in each of its three endings. *)
Lemma delivered_cases predict_proba catalog (self : Worker) (w : world) :
  (delivered predict_proba catalog self w = [error NoEventsFound; finished; finished]
   /\ heap (snd (run predict_proba catalog self w)) = heap w
   /\ fetched catalog (calls w) (nationwide_query self) = Ok []) \/
  (exists e extra,
     delivered predict_proba catalog self w = [error (CalculationError e); finished]
     /\ heap (snd (run predict_proba catalog self w)) = (heap w ++ extra)
     /\ run_failure predict_proba catalog self w e extra) \/
  (exists evs proba df risks,
     delivered predict_proba catalog self w
     = [result proba evs (length (heap w)); finished]
     /\ heap (snd (run predict_proba catalog self w))
        = (heap w ++ [{| rows := rows df; risk := Some risks |}])
     /\ fetched catalog (calls w) (nationwide_query self) = Ok evs
     /\ evs <> []
     /\ predict_risk predict_proba evs = Ok proba
     /\ heap w !! provinces self = Some df
     /\ sweep predict_proba catalog self (S (calls w)) (rows df) = Ok risks).
Proof.
  unfold delivered.
  destruct (run_ends predict_proba catalog self w) as (w' & Hrun & Hpost).
  rewrite Hrun. simpl.
  destruct Hpost as [c Hf|e extra c Hex|evs proba df risks c Hf Hne Hp Hdf Hs];
    simpl; rewrite drop_app_length.
  - left. split; [reflexivity|]. split; [reflexivity|exact Hf].
  - right. left. exists e, extra.
    split; [reflexivity|]. split; [reflexivity|exact Hex].
  - right. right. exists evs, proba, df, risks.
    split; [reflexivity|]. split; [reflexivity|]. tauto.
Qed.

(** C8.  Every run delivers exactly one outcome: the signals it adds to
    those emitted before contain exactly one [result] or [error] signal
    (the others are [finished]), whatever the catalog, the classifier and
    the state it starts in. *)
Theorem run_delivers_exactly_one_outcome predict_proba catalog
        (self : Worker) (w : world) :
  emitted (snd (run predict_proba catalog self w))
  = emitted w ++ delivered predict_proba catalog self w /\
  exists outcome,
    List.filter is_outcome (delivered predict_proba catalog self w) = [outcome].
Proof.
  split; [apply run_emitted|].
  destruct (delivered_cases predict_proba catalog self w)
    as [(-> & _)|[(e & extra & -> & _)|(evs & proba & df & risks & -> & _)]];
    simpl; eauto.
Qed.

(** C1 (amended).  If the fetch of some province fails, the run does not
    complete the mapping: it delivers exactly one [error] signal and no
    [result], and no risk is assigned to any region -- the heap holds what
    it held before, plus at most an unchanged copy of the frame. *)
Theorem failed_province_fetch_fails_run predict_proba catalog
        (self : Worker) (w : world) (df : GeoDataFrame) (k : nat) (e : exn) :
  heap w !! provinces self = Some df ->
  (k < length (rows df))%nat ->
  (forall q, catalog (S (calls w) + k)%nat q = Err e) ->
  (exists m,
     List.filter is_outcome (delivered predict_proba catalog self w) = [error m]) /\
  (heap (snd (run predict_proba catalog self w)) = heap w \/
   heap (snd (run predict_proba catalog self w)) = (heap w ++ [df])).
Proof.
  intros Hdf Hk Hfail.
  destruct (delivered_cases predict_proba catalog self w)
    as [(-> & -> & _)
       |[(e' & extra & -> & -> & Hex)
        |(evs & proba & df' & risks & _ & _ & _ & _ & _ & Hdf' & Hsweep)]].
  - split; [eexists; reflexivity|]. left. reflexivity.
  - split; [eexists; reflexivity|].
    destruct Hex as [e' _|evs e' _ _ _|evs proba _ _ _ _
                    |evs proba df' e' _ _ _ Hdf' _].
    + left. apply app_nil_r.
    + left. apply app_nil_r.
    + left. apply app_nil_r.
    + right. rewrite Hdf in Hdf'. injection Hdf' as <-. reflexivity.
  - exfalso. rewrite Hdf in Hdf'. injection Hdf' as <-.
    destruct (sweep_fetch_failure predict_proba catalog self
                (S (calls w)) k (rows df) e Hk Hfail) as (e' & He').
    rewrite He' in Hsweep. discriminate.
Qed.

Lemma failed_province_fetch_fails_run_witness :
  (exists m,
     List.filter is_outcome
       (delivered sample_classifier catalog_one_down sample_worker sample_world)
     = [error m]) /\
  (heap (snd (run sample_classifier catalog_one_down sample_worker sample_world))
   = heap sample_world \/
   heap (snd (run sample_classifier catalog_one_down sample_worker sample_world))
   = (heap sample_world ++ [sample_provinces])).
Proof.
  apply (failed_province_fetch_fails_run sample_classifier catalog_one_down
           sample_worker sample_world sample_provinces 1 (FetchError 503)).
  - reflexivity.
  - simpl. lia.
  - intros q. reflexivity.
Defined.

(** C1, as stated, fails: with three provinces and a catalog whose request
    for the second province fails while the other requests succeed, the
    run emits an error and no result; no province is given risk 0. *)
Lemma one_failed_province_aborts_run :
  emitted (snd (run sample_classifier catalog_one_down sample_worker sample_world))
  = [error (CalculationError (FetchError 503)); finished] /\
  heap (snd (run sample_classifier catalog_one_down sample_worker sample_world))
  = [sample_provinces; sample_provinces] /\
  ~ (exists proba evs l,
       In (result proba evs l)
          (emitted (snd (run sample_classifier catalog_one_down
                             sample_worker sample_world)))).
Proof.
  assert (H : emitted (snd (run sample_classifier catalog_one_down
                                sample_worker sample_world))
              = [error (CalculationError (FetchError 503)); finished])
    by (vm_compute; reflexivity).
  split; [exact H|]. split; [vm_compute; reflexivity|].
  rewrite H. intros (proba & evs & l & [Hin|[Hin|[]]]); discriminate.
Qed.

(** C5, as stated, fails: when the request for the first province fails,
    the run returns no mapping at all, so there is no key set to compare
    with the three input provinces. *)
Lemma failed_fetch_leaves_no_mapping :
  delivered sample_classifier catalog_first_province_down sample_worker sample_world
  = [error (CalculationError (FetchError 0)); finished] /\
  ~ (exists proba evs l df,
       In (result proba evs l)
          (delivered sample_classifier catalog_first_province_down
                     sample_worker sample_world) /\
       heap (snd (run sample_classifier catalog_first_province_down
                      sample_worker sample_world)) !! l = Some df /\
       map NAME_1 (rows df) = map NAME_1 (rows sample_provinces)).
Proof.
  assert (H : delivered sample_classifier catalog_first_province_down
                        sample_worker sample_world
              = [error (CalculationError (FetchError 0)); finished])
    by (vm_compute; reflexivity).
  split; [exact H|]. rewrite H.
  intros (proba & evs & l & df & [Hin|[Hin|[]]] & _); discriminate.
Qed.

(** A result is delivered only by a run in which every step succeeded;
    the frame it refers to is the copy, with its risk column complete. *)
Lemma resultdelivered_inv predict_proba catalog (self : Worker) (w : world)
      proba evs l :
  In (result proba evs l) (delivered predict_proba catalog self w) ->
  l = length (heap w) /\
  exists df risks,
    delivered predict_proba catalog self w = [result proba evs l; finished] /\
    heap (snd (run predict_proba catalog self w))
    = heap w ++ [{| rows := rows df; risk := Some risks |}] /\
    fetched catalog (calls w) (nationwide_query self) = Ok evs /\
    predict_risk predict_proba evs = Ok proba /\
    heap w !! provinces self = Some df /\
    sweep predict_proba catalog self (S (calls w)) (rows df) = Ok risks.
Proof.
  destruct (delivered_cases predict_proba catalog self w)
    as [(-> & _)
       |[(e' & extra & -> & _)
        |(evs' & proba' & df & risks & -> & Hh & Hf & _ & Hp & Hdf & Hsweep)]].
  - intros [Hin|[Hin|[Hin|[]]]]; discriminate.
  - intros [Hin|[Hin|[]]]; discriminate.
  - intros [Hin|[Hin|[]]]; [|discriminate].
    injection Hin as <- <- <-. split; [reflexivity|].
    exists df, risks. tauto.
Qed.

(** A run in which every step succeeds delivers the result. *)
Lemma resultdelivered predict_proba catalog (self : Worker) (w : world)
      df evs proba :
  heap w !! provinces self = Some df ->
  fetched catalog (calls w) (nationwide_query self) = Ok evs ->
  evs <> [] ->
  predict_risk predict_proba evs = Ok proba ->
  (forall k row,
     rows df !! k = Some row ->
     exists r, province_score predict_proba catalog self
                 (S (calls w) + k)%nat row = Ok r) ->
  delivered predict_proba catalog self w
  = [result proba evs (length (heap w)); finished].
Proof.
  intros Hdf Hf Hne Hp Hall.
  destruct (sweep_complete predict_proba catalog self (S (calls w)) (rows df) Hall)
    as (risks & Hsweep).
  destruct (delivered_cases predict_proba catalog self w)
    as [(_ & _ & Hf')
       |[(e' & extra & _ & _ & Hfail)
        |(evs' & proba' & df' & risks' & -> & _ & Hf' & _ & Hp' & _)]].
  - rewrite Hf in Hf'. congruence.
  - exfalso.
    destruct Hfail as [e' Hf'|evs' e' Hf' _ Hp'|evs' proba' _ _ _ Hdf'
                      |evs' proba' df' e' _ _ _ Hdf' Hsweep'].
    + rewrite Hf in Hf'. discriminate.
    + rewrite Hf in Hf'. injection Hf' as <-. rewrite Hp in Hp'. discriminate.
    + rewrite Hdf in Hdf'. discriminate.
    + rewrite Hdf in Hdf'. injection Hdf' as <-.
      rewrite Hsweep in Hsweep'. discriminate.
  - rewrite Hf in Hf'. injection Hf' as <-.
    rewrite Hp in Hp'. injection Hp' as <-. reflexivity.
Qed.

(** C5 (amended).  Whenever a run returns a mapping, the frame it carries
    has exactly the rows of the input frame and a risk for each of them,
    the risk being 0 for a province whose fetch found no events; a mapping
    is returned when the nationwide step and every province's fetch and
    score succeed, and none is returned when a province's fetch fails. *)
Theorem region_risk_keys predict_proba catalog (self : Worker) (w : world)
        (df : GeoDataFrame) :
  heap w !! provinces self = Some df ->
  (forall proba evs l,
     In (result proba evs l) (delivered predict_proba catalog self w) ->
     exists risks,
       heap (snd (run predict_proba catalog self w)) !! l
       = Some {| rows := rows df; risk := Some risks |} /\
       length risks = length (rows df) /\
       forall k row,
         rows df !! k = Some row ->
         fetched catalog (S (calls w) + k)%nat (province_query self row) = Ok [] ->
         risks !! k = Some 0) /\
  (forall evs proba,
     fetched catalog (calls w) (nationwide_query self) = Ok evs ->
     evs <> [] ->
     predict_risk predict_proba evs = Ok proba ->
     (forall k row,
        rows df !! k = Some row ->
        exists r, province_score predict_proba catalog self
                    (S (calls w) + k)%nat row = Ok r) ->
     delivered predict_proba catalog self w
     = [result proba evs (length (heap w)); finished]) /\
  (forall k e,
     (k < length (rows df))%nat ->
     (forall q, catalog (S (calls w) + k)%nat q = Err e) ->
     forall proba evs l,
       ~ In (result proba evs l) (delivered predict_proba catalog self w)).
Proof.
  intros Hdf. split; [|split].
  - intros proba evs l Hin.
    destruct (resultdelivered_inv _ _ _ _ _ _ _ Hin)
      as (-> & df' & risks & _ & -> & _ & _ & Hdf' & Hsweep).
    rewrite Hdf in Hdf'. injection Hdf' as <-.
    exists risks. split; [|split].
    + apply list_lookup_middle. reflexivity.
    + apply (sweep_length _ _ _ _ _ _ Hsweep).
    + intros k row Hrow Hempty.
      destruct (sweep_lookup _ _ _ _ _ _ _ _ Hsweep Hrow) as (r & Hr & Hscore).
      unfold province_score in Hscore. rewrite Hempty in Hscore.
      simpl in Hscore. injection Hscore as <-. exact Hr.
  - intros evs proba. apply resultdelivered. exact Hdf.
  - intros k e Hk Hfail proba evs l Hin.
    destruct (resultdelivered_inv _ _ _ _ _ _ _ Hin)
      as (_ & df' & risks & _ & _ & _ & _ & Hdf' & Hsweep).
    rewrite Hdf in Hdf'. injection Hdf' as <-.
    destruct (sweep_fetch_failure predict_proba catalog self
                (S (calls w)) k (rows df) e Hk Hfail) as (e' & He').
    rewrite He' in Hsweep. discriminate.
Qed.

Lemma region_risk_keys_witness :
  exists (proba : Q) (evs : list event) (risks : list Q),
    delivered sample_classifier catalog_up sample_worker sample_world
    = [result proba evs 1%nat; finished] /\
    heap (snd (run sample_classifier catalog_up sample_worker sample_world)) !! 1%nat
    = Some {| rows := rows sample_provinces; risk := Some risks |} /\
    length risks = 3%nat /\
    risks !! 1%nat = Some 0.
Proof.
  destruct (region_risk_keys sample_classifier catalog_up sample_worker
              sample_world sample_provinces eq_refl) as (Hkeys & Hdone & _).
  assert (Hf : exists evs proba,
             fetched catalog_up 0 (nationwide_query sample_worker) = Ok evs /\
             evs <> [] /\ predict_risk sample_classifier evs = Ok proba).
  { eexists. eexists. split; [vm_compute; reflexivity|].
    split; [discriminate|vm_compute; reflexivity]. }
  destruct Hf as (evs & proba & Hf & Hne & Hp).
  specialize (Hdone evs proba Hf Hne Hp).
  assert (Hall : forall k row,
             rows sample_provinces !! k = Some row ->
             exists r, province_score sample_classifier catalog_up sample_worker
                         (S (calls sample_world) + k)%nat row = Ok r).
  { intros [|[|[|k]]] row Hrow; try discriminate;
      injection Hrow as <-; eexists; vm_compute; reflexivity. }
  specialize (Hdone Hall).
  destruct (Hkeys proba evs 1%nat) as (risks & Hl & Hlen & Hzero).
  { rewrite Hdone. left. reflexivity. }
  exists proba, evs, risks.
  split; [exact Hdone|]. split; [exact Hl|]. split; [exact Hlen|].
  apply (Hzero 1%nat {| NAME_1 := "Izmir"; bounds := (26, 38, 28, 39) |} eq_refl).
  vm_compute. reflexivity.
Defined.

(** C4, as stated, fails: a run that succeeds leaves the shared frame as it
    was, without a risk column; the risks are written to a second frame. *)
Lemma successful_run_leaves_shared_frame :
  (exists proba evs,
     emitted (snd (run sample_classifier catalog_up sample_worker sample_world))
     = [result proba evs 1%nat; finished]) /\
  heap (snd (run sample_classifier catalog_up sample_worker sample_world))
    !! provinces sample_worker
  = Some sample_provinces /\
  risk sample_provinces = None /\
  (exists risks,
     heap (snd (run sample_classifier catalog_up sample_worker sample_world)) !! 1%nat
     = Some {| rows := rows sample_provinces; risk := Some risks |}).
Proof.
  split; [eexists; eexists; vm_compute; reflexivity|].
  split; [vm_compute; reflexivity|].
  split; [reflexivity|].
  eexists. vm_compute. reflexivity.
Qed.

(** C4 (amended).  A run never writes to the shared frame, nor to any frame
    that existed when it started.  It works on a copy: either the run
    fails, no result is delivered and the heap holds at most an unchanged
    copy; or all the scores of the sweep are computed, the copy's risk
    column is assigned them in one step, and only that completed copy is
    delivered. *)
Theorem run_writes_risk_on_a_copy predict_proba catalog (self : Worker)
        (w : world) :
  take (length (heap w)) (heap (snd (run predict_proba catalog self w))) = heap w /\
  (((heap (snd (run predict_proba catalog self w)) = heap w \/
     exists df, heap w !! provinces self = Some df /\
                heap (snd (run predict_proba catalog self w)) = heap w ++ [df]) /\
    List.filter is_result (delivered predict_proba catalog self w) = []) \/
   (exists df risks proba evs,
      heap w !! provinces self = Some df /\
      sweep predict_proba catalog self (S (calls w)) (rows df) = Ok risks /\
      length risks = length (rows df) /\
      heap (snd (run predict_proba catalog self w))
      = heap w ++ [{| rows := rows df; risk := Some risks |}] /\
      delivered predict_proba catalog self w
      = [result proba evs (length (heap w)); finished])).
Proof.
  destruct (delivered_cases predict_proba catalog self w)
    as [(-> & -> & _)
       |[(e & extra & -> & -> & Hfail)
        |(evs & proba & df & risks & -> & -> & _ & _ & _ & Hdf & Hsweep)]].
  - split; [apply firstn_all|]. left. split; [left|]; reflexivity.
  - split; [apply take_app_length|]. left. split; [|reflexivity].
    destruct Hfail as [e _|evs e _ _ _|evs proba _ _ _ _
                      |evs proba df e _ _ _ Hdf _].
    + left. apply app_nil_r.
    + left. apply app_nil_r.
    + left. apply app_nil_r.
    + right. exists df. split; [exact Hdf|reflexivity].
  - split; [apply take_app_length|]. right.
    exists df, risks, proba, evs.
    split; [exact Hdf|]. split; [exact Hsweep|].
    split; [apply (sweep_length _ _ _ _ _ _ Hsweep)|].
    split; reflexivity.
Qed.

(** ** Scoring *)

Lemma nth_or_IndexError_Ok {A} (l : list A) (i : nat) (x : A) :
  nth_or_IndexError l i = Ok x <-> nth_error l i = Some x.
Proof.
  unfold nth_or_IndexError. destruct (nth_error l i); split; congruence.
Qed.

Lemma predict_risk_range predict_proba :
  probability_classifier predict_proba ->
  forall events r,
    predict_risk predict_proba events = Ok r -> 0 <= r /\ r <= 100.
Proof.
  intros Hprob events r. unfold predict_risk.
  destruct events as [|e0 rest].
  - intros [= <-]. split; lra.
  - destruct (feature_values (e0 :: rest)) as [fv|]; simpl; [|discriminate].
    destruct (predict_proba (features_df fv)) as [probs|] eqn:Hpp; simpl;
      [|discriminate].
    destruct (nth_or_IndexError probs 0) as [row|] eqn:Hrow; simpl;
      [|discriminate].
    destruct (nth_or_IndexError row 1) as [p|] eqn:Hp; simpl; [|discriminate].
    intros [= <-].
    apply nth_or_IndexError_Ok in Hrow, Hp.
    destruct (Hprob _ _ _ _ Hpp Hrow Hp). split; lra.
Qed.

Lemma sweep_range predict_proba catalog (self : Worker) :
  probability_classifier predict_proba ->
  forall provs n risks,
    sweep predict_proba catalog self n provs = Ok risks ->
    Forall (fun r => 0 <= r /\ r <= 100) risks.
Proof.
  intros Hprob provs. induction provs as [|row rest IH]; intros n risks; simpl.
  - intros [= <-]. constructor.
  - destruct (province_score predict_proba catalog self n row) as [r|] eqn:Hr;
      simpl; [|discriminate].
    destruct (sweep predict_proba catalog self (S n) rest) as [rs|] eqn:Hrs;
      simpl; [|discriminate].
    intros [= <-]. constructor; [|apply (IH (S n)); exact Hrs].
    unfold province_score in Hr.
    destruct (fetched catalog n (province_query self row)) as [[|ev evs]|];
      cbn [rbind] in Hr;
      [|apply (predict_risk_range _ Hprob _ _ Hr)|discriminate].
    injection Hr as <-. split; lra.
Qed.

(** C7.  With a classifier whose positive-class output [p] is a
    probability, scoring a non-empty event list returns exactly [p * 100];
    hence every risk the code computes -- the score of any event list, the
    0 of an empty one, the overall risk and every entry of the risk column
    of a delivered result -- lies between 0 and 100. *)
Theorem score_is_hundred_times_probability predict_proba :
  probability_classifier predict_proba ->
  (forall events fv probs row p,
     events <> [] ->
     feature_values events = Ok fv ->
     predict_proba (features_df fv) = Ok probs ->
     nth_error probs 0 = Some row ->
     nth_error row 1 = Some p ->
     predict_risk predict_proba events = Ok (p * 100)) /\
  predict_risk predict_proba [] = Ok 0 /\
  (forall events r,
     predict_risk predict_proba events = Ok r -> 0 <= r /\ r <= 100) /\
  (forall catalog (self : Worker) w proba evs l,
     In (result proba evs l) (delivered predict_proba catalog self w) ->
     (0 <= proba /\ proba <= 100) /\
     exists df risks,
       heap (snd (run predict_proba catalog self w)) !! l
       = Some {| rows := rows df; risk := Some risks |} /\
       Forall (fun r => 0 <= r /\ r <= 100) risks).
Proof.
  intros Hprob. split; [|split; [|split]].
  - intros events fv probs row p Hne Hfv Hpp Hrow Hp.
    unfold predict_risk. destruct events as [|e0 rest]; [congruence|].
    rewrite Hfv. simpl. rewrite Hpp. simpl.
    apply nth_or_IndexError_Ok in Hrow, Hp. rewrite Hrow. simpl.
    rewrite Hp. reflexivity.
  - reflexivity.
  - apply predict_risk_range. exact Hprob.
  - intros catalog self w proba evs l Hin.
    destruct (resultdelivered_inv _ _ _ _ _ _ _ Hin)
      as (-> & df & risks & _ & -> & _ & Hp & _ & Hsweep).
    split; [apply (predict_risk_range _ Hprob _ _ Hp)|].
    exists df, risks. split; [apply list_lookup_middle; reflexivity|].
    apply (sweep_range _ _ _ Hprob _ _ _ Hsweep).
Qed.

Lemma sample_classifier_probability : probability_classifier sample_classifier.
Proof.
  intros x probs row p Hpp Hrow Hp.
  unfold sample_classifier in Hpp. injection Hpp as <-.
  simpl in Hrow. injection Hrow as <-.
  simpl in Hp. injection Hp as <-. split; lra.
Qed.

Lemma score_is_hundred_times_probability_witness :
  predict_risk sample_classifier sample_events = Ok ((3 # 4) * 100) /\
  forall r, predict_risk sample_classifier sample_events = Ok r ->
            0 <= r /\ r <= 100.
Proof.
  destruct (score_is_hundred_times_probability sample_classifier
              sample_classifier_probability) as (Hscore & _ & Hrange & _).
  split.
  - eapply (Hscore sample_events).
    + discriminate.
    + vm_compute. reflexivity.
    + reflexivity.
    + reflexivity.
    + reflexivity.
  - apply Hrange.
Defined.

(** ** The parser *)

Lemma parse_feature_well_formed (feature : pyval) (secs : Q) :
  has_magnitude feature = true ->
  (3 <= length (record_coordinates feature))%nat ->
  usable_time feature = Some secs ->
  exists mag depth,
    lookup_key "mag" (record_properties feature) = Some mag /\
    is_none mag = false /\
    nth_error (record_coordinates feature) 2 = Some depth /\
    parse_feature feature
    = Ok (Some [("time", PDatetime secs); ("mag", mag); ("depth", depth);
                ("nst", ancillary "nst" feature);
                ("gap", ancillary "gap" feature);
                ("dmin", ancillary "dmin" feature);
                ("rms", ancillary "rms" feature)]).
Proof.
  unfold has_magnitude, usable_time, ancillary, record_properties,
    record_coordinates.
  destruct feature as [| | | | |items|]; try discriminate.
  destruct (lookup_key "properties" items) as [[| | | | |props|]|] eqn:Hprops;
    try discriminate.
  destruct (lookup_key "geometry" items) as [[| | | | |geometry|]|] eqn:Hgeom;
    try (intros _ H; exfalso; simpl in H; lia).
  destruct (lookup_key "coordinates" geometry) as [[| | | |coords| |]|]
    eqn:Hcoords;
    try (intros _ H; exfalso; simpl in H; lia).
  destruct (lookup_key "mag" props) as [mag|] eqn:Hmag; [|discriminate].
  intros Hsome Hlen.
  apply negb_true_iff in Hsome.
  destruct (lookup_key "time" props) as [time|] eqn:Htime; [|discriminate].
  destruct (as_number time) as [t|] eqn:Hnum; [|discriminate].
  destruct (Qle_bool min_timestamp (Qred (t / 1000))
            && negb (Qle_bool max_timestamp (Qred (t / 1000)))) eqn:Hrange;
    [|discriminate].
  intros [= <-].
  destruct coords as [|c0 [|c1 [|c2 coords]]]; simpl in Hlen; try lia.
  exists mag, c2.
  split; [reflexivity|]. split; [exact Hsome|]. split; [reflexivity|].
  unfold parse_feature, py_get, py_getitem.
  rewrite Hprops, Hgeom. cbv beta iota delta [rbind].
  rewrite Hcoords, Hmag, Hsome, Htime, Hnum.
  unfold utcfromtimestamp. rewrite Hrange.
  destruct (lookup_key "nst" props), (lookup_key "gap" props),
    (lookup_key "dmin" props), (lookup_key "rms" props); reflexivity.
Qed.

(** A record of the GeoJSON shape without a magnitude, or with fewer than
    three coordinates, is skipped. *)
Lemma parse_feature_skipped (feature : pyval) :
  geojson_shaped feature = true ->
  has_magnitude feature = false \/
  (length (record_coordinates feature) < 3)%nat ->
  parse_feature feature = Ok None.
Proof.
  unfold geojson_shaped, has_magnitude, record_properties, record_coordinates.
  destruct feature as [| | | | |items|]; try discriminate.
  destruct (lookup_key "properties" items) as [[| | | | |props|]|] eqn:Hprops;
    try discriminate.
  destruct (lookup_key "geometry" items) as [[| | | | |geometry|]|] eqn:Hgeom;
    try discriminate.
  destruct (lookup_key "coordinates" geometry) as [[| | | |coords| |]|]
    eqn:Hcoords; try discriminate.
  intros _ Hskip.
  unfold parse_feature, py_get, py_len.
  rewrite Hprops, Hgeom. cbv beta iota delta [rbind]. rewrite Hcoords.
  destruct (lookup_key "mag" props) as [mag|]; [|reflexivity].
  destruct (is_none mag); [reflexivity|].
  destruct Hskip as [Hmag|Hlen]; [discriminate|].
  apply Nat.leb_gt in Hlen. rewrite Hlen. reflexivity.
Qed.

(** For a regular record the parser does what the specification says: it
    yields an event exactly when the record has a magnitude and at least
    three coordinates, and skips the record otherwise. *)
Lemma parse_feature_regular (feature : pyval) :
  regular_record feature = true ->
  (exists o, parse_feature feature = Ok o) /\
  ((exists e, parse_feature feature = Ok (Some e)) <->
   has_magnitude feature = true /\
   (3 <= length (record_coordinates feature))%nat).
Proof.
  unfold regular_record. intros Hreg.
  apply andb_prop in Hreg. destruct Hreg as [Hshape Hreg].
  destruct (has_magnitude feature) eqn:Hmag;
    [destruct (3 <=? length (record_coordinates feature))%nat eqn:Hlen|].
  - (* magnitude and three coordinates: parsed *)
    apply Nat.leb_le in Hlen. simpl in Hreg.
    destruct (usable_time feature) as [secs|] eqn:Htime; [|discriminate].
    destruct (parse_feature_well_formed feature secs Hmag Hlen Htime)
      as (mag & depth & _ & _ & _ & Hparse).
    rewrite Hparse. split; [eauto|]. split; [auto|eauto].
  - (* fewer than three coordinates: skipped *)
    apply Nat.leb_gt in Hlen.
    rewrite (parse_feature_skipped feature Hshape (or_intror Hlen)).
    split; [eauto|]. split.
    + intros (e & He). discriminate.
    + intros (_ & H). lia.
  - (* no magnitude: skipped *)
    rewrite (parse_feature_skipped feature Hshape (or_introl Hmag)).
    split; [eauto|]. split.
    + intros (e & He). discriminate.
    + intros (H & _). discriminate.
Qed.

(** A response made of regular records is parsed without error, into at
    most one event per record. *)
Lemma parse_features_regular (features : list pyval) :
  forallb regular_record features = true ->
  exists events,
    parse_features features = Ok events /\
    (length events <= length features)%nat.
Proof.
  induction features as [|feature rest IH]; intros Hreg.
  - exists []. split; [reflexivity|simpl; lia].
  - simpl in Hreg. apply andb_prop in Hreg. destruct Hreg as [Hf Hrest].
    destruct (IH Hrest) as (events & Hparse & Hlen).
    destruct (parse_feature_regular feature Hf) as ((o & Ho) & _).
    cbn [parse_features]. rewrite Ho, Hparse. cbn [rbind].
    eexists. split; [reflexivity|].
    destruct o; simpl; lia.
Qed.

(** C9: the code at records it should parse or skip.  A record with a
    magnitude and three coordinates but no [time] makes the parser raise
    [KeyError] instead of yielding an event, and a record whose geometry is
    [null] makes it raise [AttributeError] instead of being skipped; either
    way the events of the well-formed record before it are lost too. *)
Theorem record_without_time_raises :
  has_magnitude record_without_time = true /\
  length (record_coordinates record_without_time) = 3%nat /\
  parse_feature record_without_time = Err (KeyError "time") /\
  parse_earthquake_data
    (collection [sample_record 4 1700000000000 10; record_without_time])
  = Err (KeyError "time") /\
  parse_earthquake_data
    (collection [sample_record 4 1700000000000 10; record_null_geometry])
  = Err AttributeError.
Proof.
  repeat split; vm_compute; reflexivity.
Qed.

(** C10: the code at two records without ancillary values.  The first has
    a magnitude and three coordinates and none of nst, gap, dmin, rms, nor
    a [time]: instead of an event with zeros the parser raises [KeyError].
    The second has them all, nst and dmin being [null]: the event keeps
    [None] where the claim has 0, and averaging nst raises [TypeError]. *)
Theorem ancillary_defaults_miss_time_and_null :
  (has_magnitude record_without_time = true /\
   length (record_coordinates record_without_time) = 3%nat /\
   lookup_key "nst" (record_properties record_without_time) = None /\
   parse_feature record_without_time = Err (KeyError "time")) /\
  (has_magnitude record_null_nst = true /\
   length (record_coordinates record_null_nst) = 3%nat /\
   exists e,
     parse_feature record_null_nst = Ok (Some e) /\
     lookup_key "nst" e = Some PNone /\
     lookup_key "dmin" e = Some PNone /\
     feature_mean [e] "nst" = Err TypeError).
Proof.
  split.
  - repeat split; vm_compute; reflexivity.
  - split; [reflexivity|]. split; [reflexivity|].
    eexists. split; [vm_compute; reflexivity|].
    repeat split; vm_compute; reflexivity.
Qed.

(** The defaults where they do apply.  A record with a magnitude, three
    coordinates and a usable [time] yields an event, appended to the list;
    each of nst, gap, dmin, rms the record lacks is 0 in that event; and in
    any list of numeric events containing it, the mean of that field is
    the arithmetic mean over all the events, this one counting as 0. *)
Theorem missing_ancillary_fields_default_to_zero (feature : pyval) (secs : Q) :
  has_magnitude feature = true ->
  (3 <= length (record_coordinates feature))%nat ->
  usable_time feature = Some secs ->
  exists e,
    parse_feature feature = Ok (Some e) /\
    (forall rest events,
       parse_features rest = Ok events ->
       parse_features (feature :: rest) = Ok (e :: events)) /\
    (forall k,
       In k ["nst"; "gap"; "dmin"; "rms"] ->
       lookup_key k (record_properties feature) = None ->
       lookup_key k e = Some (PNum 0) /\
       field_value k e = 0 /\
       forall events,
         In e events ->
         forallb numeric_event events = true ->
         feature_mean events k
         = Ok (Qred (arithmetic_mean (map (field_value k) events))) /\
         Qred (arithmetic_mean (map (field_value k) events))
         == arithmetic_mean (map (field_value k) events)).
Proof.
  intros Hmag Hlen Htime.
  destruct (parse_feature_well_formed feature secs Hmag Hlen Htime)
    as (mag & depth & _ & _ & _ & Hparse).
  eexists. split; [exact Hparse|]. split.
  - intros rest events Hrest. cbn [parse_features].
    rewrite Hparse, Hrest. reflexivity.
  - intros k Hk Hlack.
    assert (Hzero : ancillary k feature = PNum 0)
      by (unfold ancillary; rewrite Hlack; reflexivity).
    assert (Hfield :
              lookup_key k
                [("time", PDatetime secs); ("mag", mag); ("depth", depth);
                 ("nst", ancillary "nst" feature);
                 ("gap", ancillary "gap" feature);
                 ("dmin", ancillary "dmin" feature);
                 ("rms", ancillary "rms" feature)] = Some (PNum 0)).
    { destruct Hk as [<-|[<-|[<-|[<-|[]]]]]; cbn; rewrite Hzero; reflexivity. }
    split; [exact Hfield|]. split.
    + unfold field_value. rewrite Hfield. reflexivity.
    + intros events Hin Hnum. split; [|apply Qred_correct].
      apply feature_mean_numeric.
      * intros ->. destruct Hin.
      * exact Hnum.
      * destruct Hk as [<-|[<-|[<-|[<-|[]]]]]; cbn; tauto.
Qed.

Lemma missing_ancillary_fields_default_to_zero_witness :
  exists e,
    parse_feature bare_record = Ok (Some e) /\
    lookup_key "nst" e = Some (PNum 0) /\
    lookup_key "rms" e = Some (PNum 0) /\
    feature_mean (e :: sample_events) "nst"
    = Ok (Qred (arithmetic_mean (map (field_value "nst") (e :: sample_events)))) /\
    arithmetic_mean (map (field_value "nst") (e :: sample_events)) == 8.
Proof.
  destruct (missing_ancillary_fields_default_to_zero bare_record 1700000000)
    as (e & Hparse & _ & Hdefault).
  - reflexivity.
  - simpl. lia.
  - reflexivity.
  - exists e. split; [exact Hparse|].
    destruct (Hdefault "nst") as (Hnst & _ & Hmean);
      [cbn; tauto|reflexivity|].
    destruct (Hdefault "rms") as (Hrms & _ & _);
      [cbn; tauto|reflexivity|].
    split; [exact Hnst|]. split; [exact Hrms|].
    assert (He : e = [("time", PDatetime 1700000000); ("mag", PNum 4);
                      ("depth", PNum 10); ("nst", PNum 0); ("gap", PNum 0);
                      ("dmin", PNum 0); ("rms", PNum 0)]).
    { vm_compute in Hparse. injection Hparse as <-. reflexivity. }
    destruct (Hmean (e :: sample_events)) as (Hm & _).
    + left. reflexivity.
    + rewrite He. reflexivity.
    + split; [exact Hm|]. rewrite He. reflexivity.
Defined.

(** ** The empty event list *)

(** C3, as stated, fails: given the empty event list, the operation that
    aggregates and scores returns a value, 0. *)
Lemma empty_list_returns_zero :
  predict_risk sample_classifier [] = Ok 0 /\
  ~ (exists e, predict_risk sample_classifier [] = Err e).
Proof.
  split; [reflexivity|]. intros (e & He). discriminate.
Qed.

(** C3 (amended).  For the empty event list [predict_risk] does not fail:
    its guard returns 0 before the aggregation loop and before the
    classifier is consulted, whatever the classifier. *)
Theorem predict_risk_empty_is_zero
        (predict_proba : list (string * option Q) -> raises (list (list Q))) :
  predict_risk predict_proba [] = Ok 0.
Proof.
  reflexivity.
Qed.

(** ** Starting a run while one is in flight *)

Lemma disabled_button_starts_nothing (a : EarlyWarningApp) :
  analyze_btn_enabled a = false -> dispatch a button_pressed = a.
Proof.
  intros H. unfold dispatch. rewrite H. reflexivity.
Qed.

(** C2: the code at a timer tick during a run.  After the button starts a
    run, pressing the button again starts nothing (it is disabled), but the
    timer's [timeout] calls [start_analysis] all the same and a second
    worker is started while the first is in flight -- as it is from any
    state whatever. *)
Theorem timer_starts_second_run :
  in_flight (dispatch_all app_init [button_pressed]) = 1%nat /\
  in_flight (dispatch_all app_init [button_pressed; button_pressed]) = 1%nat /\
  in_flight (dispatch_all app_init [button_pressed; timer_timeout]) = 2%nat /\
  (forall a, in_flight (dispatch a timer_timeout) = S (in_flight a)).
Proof.
  repeat split.
Qed.

(** * Further properties of the code *)

(** ** What the parser returns *)

Lemma py_get_dict (d : pyval) (k : string) (default v : pyval) :
  py_get d k default = Ok v ->
  exists items,
    d = PDict items /\
    v = match lookup_key k items with
        | Some x => x
        | None => default
        end.
Proof.
  destruct d; try discriminate. simpl.
  destruct (lookup_key k items) eqn:Hk; intros [= <-];
    exists items; rewrite Hk; split; reflexivity.
Qed.

Lemma parse_feature_event (feature : pyval) (e : event) :
  parse_feature feature = Ok (Some e) -> parsed_event e.
Proof.
  unfold parse_feature.
  destruct (py_get feature "properties" (PDict [])) as [props|] eqn:Hprops;
    cbn [rbind]; [|discriminate].
  destruct (py_get feature "geometry" (PDict [])) as [geometry|];
    cbn [rbind]; [|discriminate].
  destruct (py_get geometry "coordinates" (PList [])) as [coords|];
    cbn [rbind]; [|discriminate].
  destruct (py_get props "mag" PNone) as [mag|] eqn:Hmag;
    cbn [rbind]; [|discriminate].
  destruct (is_none mag) eqn:Hnone; [discriminate|].
  destruct (py_len coords) as [n|]; cbn [rbind]; [|discriminate].
  destruct (3 <=? n)%nat; [|discriminate].
  destruct (py_getitem props "time") as [time|]; cbn [rbind]; [|discriminate].
  destruct (as_number time) as [t|]; [|discriminate].
  unfold utcfromtimestamp.
  destruct (Qle_bool min_timestamp (Qred (t / 1000))
            && negb (Qle_bool max_timestamp (Qred (t / 1000))));
    cbn [rbind]; [|discriminate].
  destruct (py_getitem props "mag") as [mag'|] eqn:Hmag'; cbn [rbind];
    [|discriminate].
  destruct (py_index coords 2) as [depth|]; cbn [rbind]; [|discriminate].
  destruct (py_get props "nst" (PNum 0)) as [nst|]; cbn [rbind]; [|discriminate].
  destruct (py_get props "gap" (PNum 0)) as [gap|]; cbn [rbind]; [|discriminate].
  destruct (py_get props "dmin" (PNum 0)) as [dmin|]; cbn [rbind]; [|discriminate].
  destruct (py_get props "rms" (PNum 0)) as [rms|]; cbn [rbind]; [|discriminate].
  intros [= <-].
  assert (mag' = mag) as ->.
  { destruct (py_get_dict _ _ _ _ Hmag) as (items & -> & ->).
    simpl in Hmag'. destruct (lookup_key "mag" items); congruence. }
  split; [reflexivity|]. split; [eexists; reflexivity|].
  exists mag. split; [reflexivity|exact Hnone].
Qed.

Lemma parse_features_events (features : list pyval) (events : list event) :
  parse_features features = Ok events -> Forall parsed_event events.
Proof.
  revert events. induction features as [|feature rest IH]; intros events.
  - intros [= <-]. constructor.
  - cbn [parse_features].
    destruct (parse_feature feature) as [o|] eqn:Hf; cbn [rbind]; [|discriminate].
    destruct (parse_features rest) as [evs|]; cbn [rbind]; [|discriminate].
    intros [= <-]. destruct o as [e|]; [|apply IH; reflexivity].
    constructor; [apply (parse_feature_event _ _ Hf)|apply IH; reflexivity].
Qed.

Lemma parse_earthquake_data_events (data : pyval) (events : list event) :
  parse_earthquake_data data = Ok events -> Forall parsed_event events.
Proof.
  unfold parse_earthquake_data.
  destruct (py_get data "features" (PList [])) as [fs|]; cbn [rbind];
    [|discriminate].
  destruct (py_iter fs) as [features|]; cbn [rbind]; [|discriminate].
  apply parse_features_events.
Qed.

(** X1.  Whatever the response, every event of a successful parse has
    exactly the keys time, mag, depth, nst, gap, dmin, rms, in that order,
    a datetime under [time] and a magnitude that is not [None]. *)
Theorem parsed_events_have_the_seven_keys (data : pyval) (events : list event) :
  parse_earthquake_data data = Ok events ->
  forall e, In e events ->
    map fst e = ["time"; "mag"; "depth"; "nst"; "gap"; "dmin"; "rms"] /\
    (exists secs, lookup_key "time" e = Some (PDatetime secs)) /\
    (exists mag, lookup_key "mag" e = Some mag /\ is_none mag = false).
Proof.
  intros Hparse e Hin.
  pose proof (parse_earthquake_data_events data events Hparse) as Hall.
  rewrite Forall_forall in Hall. apply (Hall e). apply list_elem_of_In, Hin.
Qed.

Lemma parsed_events_have_the_seven_keys_witness :
  exists events,
    parse_earthquake_data sample_collection = Ok events /\
    forall e, In e events ->
      map fst e = ["time"; "mag"; "depth"; "nst"; "gap"; "dmin"; "rms"].
Proof.
  exists sample_events. split; [vm_compute; reflexivity|].
  intros e Hin.
  apply (parsed_events_have_the_seven_keys sample_collection sample_events);
    [vm_compute; reflexivity|exact Hin].
Defined.

Lemma rbind_Ok_r {A} (r : raises A) : (let! x := r in Ok x) = r.
Proof. destruct r; reflexivity. Qed.

Lemma parse_features_app (a b : list pyval) :
  parse_features (a ++ b)
  = let! ea := parse_features a in
    let! eb := parse_features b in
    Ok (ea ++ eb).
Proof.
  induction a as [|feature a IH].
  - simpl. symmetry. apply rbind_Ok_r.
  - cbn [app parse_features]. rewrite IH.
    destruct (parse_feature feature) as [o|]; cbn [rbind]; [|reflexivity].
    destruct (parse_features a) as [ea|]; cbn [rbind]; [|reflexivity].
    destruct (parse_features b) as [eb|]; cbn [rbind]; [|reflexivity].
    destruct o; reflexivity.
Qed.

Lemma parse_features_members (features : list pyval) (events : list event) :
  parse_features features = Ok events ->
  (length events <= length features)%nat /\
  forall e, In e events <->
            exists feature, In feature features /\
                            parse_feature feature = Ok (Some e).
Proof.
  revert events. induction features as [|feature rest IH]; intros events.
  - intros [= <-]. split; [reflexivity|].
    intros e. split; [intros []|intros (f & [] & _)].
  - cbn [parse_features].
    destruct (parse_feature feature) as [o|] eqn:Hf; cbn [rbind]; [|discriminate].
    destruct (parse_features rest) as [evs|]; cbn [rbind]; [|discriminate].
    destruct (IH evs eq_refl) as (Hlen & Hmem).
    intros [= <-]. split; [destruct o; simpl; lia|].
    intros e. split.
    + intros Hin.
      assert (Hcases : o = Some e \/ In e evs)
        by (destruct o; [destruct Hin as [<-|Hin]|]; auto).
      destruct Hcases as [->|Hin'].
      * exists feature. split; [left; reflexivity|exact Hf].
      * apply Hmem in Hin'. destruct Hin' as (f & Hinf & Hpf).
        exists f. split; [right; exact Hinf|exact Hpf].
    + intros (f & [<-|Hinf] & Hpf).
      * rewrite Hf in Hpf. injection Hpf as ->. left. reflexivity.
      * assert (In e evs) by (apply Hmem; eauto).
        destruct o; [right|]; assumption.
Qed.

(** X2.  When a response whose [features] are a list is parsed without
    error, the events are exactly those of its records, at most one per
    record: an event is in the result if and only if some record of the
    response yields it. *)
Theorem parsed_events_come_from_records
        (items : list (string * pyval)) (features : list pyval)
        (events : list event) :
  lookup_key "features" items = Some (PList features) ->
  parse_earthquake_data (PDict items) = Ok events ->
  (length events <= length features)%nat /\
  forall e, In e events <->
            exists feature, In feature features /\
                            parse_feature feature = Ok (Some e).
Proof.
  intros Hfs. unfold parse_earthquake_data, py_get. rewrite Hfs.
  cbn [rbind py_iter]. apply parse_features_members.
Qed.

Lemma parsed_events_come_from_records_witness :
  exists events,
    parse_earthquake_data
      (collection [sample_record 4 1700000000000 10; PDict []; bare_record])
    = Ok events /\
    (length events <= 3)%nat.
Proof.
  destruct (parse_earthquake_data
              (collection [sample_record 4 1700000000000 10; PDict [];
                           bare_record])) as [events|] eqn:Hparse;
    [|vm_compute in Hparse; discriminate].
  exists events. split; [reflexivity|].
  exact (proj1 (parsed_events_come_from_records
                  [("type", PStr "FeatureCollection");
                   ("features", PList [sample_record 4 1700000000000 10;
                                       PDict []; bare_record])]
                  [sample_record 4 1700000000000 10; PDict []; bare_record]
                  events eq_refl Hparse)).
Defined.

(** X3.  Parsing distributes over concatenation of the records: the events
    of two lists of records put together are the events of the first
    followed by those of the second, and the first record that raises
    decides the exception. *)
Theorem parse_of_concatenated_records (a b : list pyval) :
  parse_earthquake_data (PDict [("features", PList (a ++ b))])
  = let! ea := parse_earthquake_data (PDict [("features", PList a)]) in
    let! eb := parse_earthquake_data (PDict [("features", PList b)]) in
    Ok (ea ++ eb).
Proof.
  unfold parse_earthquake_data. cbn [py_get lookup_key String.eqb Ascii.eqb
    Bool.eqb rbind py_iter]. simpl String.eqb. cbn [rbind py_iter].
  apply parse_features_app.
Qed.

(** ** Scoring the events the parser returns *)

Lemma lookup_key_present (k : string) (e : event) :
  In k (map fst e) -> exists v, lookup_key k e = Some v.
Proof.
  induction e as [|[k' v] e IH]; simpl; [intros []|].
  intros Hin. destruct (String.eqb k k') eqn:Heq; [eauto|].
  destruct Hin as [->|Hin]; [|auto].
  rewrite String.eqb_refl in Heq. discriminate.
Qed.

Lemma parsed_event_has_features (e : event) (feat : string) :
  parsed_event e ->
  In feat training_features ->
  exists v, lookup_key feat e = Some v.
Proof.
  intros (Hkeys & _) Hin. apply lookup_key_present. rewrite Hkeys.
  unfold event_keys. unfold training_features in Hin. simpl in *. tauto.
Qed.

Lemma column_raw_values (feat : string) (events : list event) :
  (forall e, In e events -> exists v, lookup_key feat e = Some v) ->
  rmap (event_field feat) events = Ok (map (raw_value feat) events).
Proof.
  intros Hall. apply rmap_ok_map. intros e Hin.
  destruct (Hall e Hin) as (v & Hv).
  unfold event_field, py_getitem, raw_value. rewrite Hv. reflexivity.
Qed.

(** On events that all hold the feature, one turn of the aggregation loop
    is [statistics.mean] of the column. *)
Lemma feature_mean_column (feat : string) (events : list event) :
  events <> [] ->
  (forall e, In e events -> exists v, lookup_key feat e = Some v) ->
  feature_mean events feat = statistics_mean (map (raw_value feat) events).
Proof.
  intros Hne Hall. destruct events as [|e0 rest]; [congruence|].
  unfold feature_mean. rewrite (column_raw_values feat _ Hall).
  destruct (Hall e0 (or_introl eq_refl)) as (v & Hv).
  unfold py_contains. rewrite Hv. reflexivity.
Qed.







Lemma numbers_perm (c c' : list pyval) :
  Permutation c c' ->
  match numbers c, numbers c' with
  | Some qs, Some qs' => Permutation qs qs'
  | None, None => True
  | _, _ => False
  end.
Proof.
  induction 1 as [|x c c' _ IH|x y c|c c' c'' _ IH1 _ IH2]; simpl.
  - constructor.
  - destruct (as_number x), (numbers c), (numbers c');
      try exact IH; try exact I.
    apply perm_skip, IH.
  - destruct (as_number x), (as_number y), (numbers c); try exact I.
    apply perm_swap.
  - destruct (numbers c), (numbers c'), (numbers c'');
      try exact I; try contradiction.
    eapply perm_trans; eassumption.
Qed.

Lemma statistics_mean_perm (c c' : list pyval) :
  Permutation c c' -> statistics_mean c' = statistics_mean c.
Proof.
  intros Hperm. pose proof (numbers_perm c c' Hperm) as Hnum.
  unfold statistics_mean.
  destruct c as [|x c].
  - apply Permutation_nil in Hperm. subst. reflexivity.
  - destruct c' as [|x' c'].
    + apply Permutation_sym, Permutation_nil in Hperm. discriminate.
    + destruct (numbers (x :: c)) as [qs|], (numbers (x' :: c')) as [qs'|];
        try contradiction; [|reflexivity].
      f_equal. apply Qred_complete.
      change (arithmetic_mean qs' == arithmetic_mean qs).
      apply arithmetic_mean_perm, Permutation_sym, Hnum.
Qed.

Lemma rmap_ext {A B} (f g : A -> raises B) (l : list A) :
  (forall x, In x l -> f x = g x) -> rmap f l = rmap g l.
Proof.
  induction l as [|x l IH]; intros H; simpl; [reflexivity|].
  rewrite (H x (or_introl eq_refl)), IH; [reflexivity|].
  intros y Hy. apply H. right. exact Hy.
Qed.

Lemma feature_values_perm_parsed (events events' : list event) :
  Forall parsed_event events ->
  Permutation events events' ->
  feature_values events' = feature_values events.
Proof.
  intros Hall Hperm.
  destruct events as [|e0 rest].
  { apply Permutation_nil in Hperm. subst. reflexivity. }
  assert (Hne' : events' <> []).
  { intros ->. apply Permutation_sym, Permutation_nil in Hperm. discriminate. }
  assert (Hall' : Forall parsed_event events').
  { rewrite Forall_forall in *. intros e He. apply Hall.
    rewrite <- Hperm in He. exact He. }
  unfold feature_values. apply rmap_ext. intros feat Hfeat.
  rewrite (feature_mean_column feat (e0 :: rest)); [|discriminate|].
  - rewrite (feature_mean_column feat events' Hne').
    + rewrite (statistics_mean_perm (map (raw_value feat) (e0 :: rest))
                 (map (raw_value feat) events')); [reflexivity|].
      apply Permutation_map, Hperm.
    + intros e He. apply parsed_event_has_features; [|exact Hfeat].
      rewrite Forall_forall in Hall'. apply Hall', list_elem_of_In, He.
  - intros e He. apply parsed_event_has_features; [|exact Hfeat].
    rewrite Forall_forall in Hall. apply Hall, list_elem_of_In, He.
Qed.

(** X5.  The score of the events parsed from a response does not depend on
    their order: for every permutation of them [predict_risk] gives the
    same outcome, be it the risk or the exception. *)
Theorem score_ignores_event_order
        (predict_proba : list (string * option Q) -> raises (list (list Q)))
        (data : pyval) (events events' : list event) :
  parse_earthquake_data data = Ok events ->
  Permutation events events' ->
  predict_risk predict_proba events' = predict_risk predict_proba events.
Proof.
  intros Hparse Hperm.
  pose proof (feature_values_perm_parsed events events'
                (parse_earthquake_data_events _ _ Hparse) Hperm) as Hfv.
  unfold predict_risk.
  destruct events as [|e0 rest].
  - apply Permutation_nil in Hperm. subst. reflexivity.
  - destruct events' as [|e0' rest'].
    + apply Permutation_sym, Permutation_nil in Hperm. discriminate.
    + rewrite Hfv. reflexivity.
Qed.

Lemma score_ignores_event_order_witness :
  exists events,
    parse_earthquake_data sample_collection = Ok events /\
    predict_risk sample_classifier (rev events)
    = predict_risk sample_classifier events.
Proof.
  destruct (parse_earthquake_data sample_collection) as [events|] eqn:Hparse;
    [|vm_compute in Hparse; discriminate].
  exists events. split; [reflexivity|].
  apply (score_ignores_event_order sample_classifier sample_collection
           events (rev events) Hparse).
  apply Permutation_rev.
Defined.

(** ** Means stay within the data *)





(** ** The state a run ends in *)

Lemma run_exact predict_proba catalog (self : Worker) (w : world) :
  run predict_proba catalog self w
  = (Ok tt,
     match fetched catalog (calls w) (nationwide_query self) with
     | Err e =>
         {| heap := heap w; calls := S (calls w);
            emitted := emitted w ++ [error (CalculationError e); finished] |}
     | Ok [] =>
         {| heap := heap w; calls := S (calls w);
            emitted := emitted w ++ [error NoEventsFound; finished; finished] |}
     | Ok evs =>
         match predict_risk predict_proba evs with
         | Err e =>
             {| heap := heap w; calls := S (calls w);
                emitted := emitted w ++ [error (CalculationError e); finished] |}
         | Ok proba =>
             match heap w !! provinces self with
             | None =>
                 {| heap := heap w; calls := S (calls w);
                    emitted := emitted w
                               ++ [error (CalculationError AttributeError);
                                   finished] |}
             | Some df =>
                 let n := sweep_calls predict_proba catalog self
                            (S (calls w)) (rows df) in
                 match sweep predict_proba catalog self (S (calls w)) (rows df) with
                 | Err e =>
                     {| heap := heap w ++ [df]; calls := S (calls w) + n;
                        emitted := emitted w
                                   ++ [error (CalculationError e); finished] |}
                 | Ok risks =>
                     {| heap := heap w ++ [{| rows := rows df;
                                              risk := Some risks |}];
                        calls := S (calls w) + n;
                        emitted := emitted w
                                   ++ [result proba evs (length (heap w));
                                       finished] |}
                 end
             end
         end
     end).
Proof.
  unfold run, run_try. unfold bind at 1. unfold fetch_events at 1.
  fold (nationwide_query self).
  fold (fetched catalog (calls w) (nationwide_query self)).
  destruct (fetched catalog (calls w) (nationwide_query self))
    as [[|ev evs]|e].
  - unfold emit, bind, ret. simpl. rewrite <- ?app_assoc. reflexivity.
  - unfold bind at 1, lift at 1.
    destruct (predict_risk predict_proba (ev :: evs)) as [proba|e].
    2:{ unfold emit, bind, ret. simpl. rewrite <- ?app_assoc. reflexivity. }
    unfold bind at 1, frame_copy at 1. cbn [heap calls emitted].
    destruct (heap w !! provinces self) as [df|].
    2:{ unfold emit, bind, ret. simpl. rewrite <- ?app_assoc. reflexivity. }
    unfold bind at 1, iterrows at 1. cbn [heap calls emitted].
    rewrite list_lookup_middle by reflexivity.
    unfold bind at 1. rewrite province_risks_sweep. cbn [heap calls emitted].
    destruct (sweep predict_proba catalog self (S (calls w)) (rows df))
      as [risks|e] eqn:Hsweep.
    2:{ unfold emit, bind, ret. simpl. rewrite <- ?app_assoc. reflexivity. }
    unfold bind at 1, frame_set_risk at 1. cbn [heap calls emitted].
    rewrite list_lookup_middle by reflexivity.
    rewrite (sweep_length _ _ _ _ _ _ Hsweep), Nat.eqb_refl.
    pose proof (insert_app_r (heap w) [df] 0
                  {| rows := rows df; risk := Some risks |}) as Hins.
    rewrite Nat.add_0_r in Hins. unfold loc in *. rewrite Hins.
    unfold emit, bind, ret. simpl. rewrite <- ?app_assoc. reflexivity.
  - unfold emit, bind, ret. simpl. rewrite <- ?app_assoc. reflexivity.
Qed.

Lemma sweep_calls_le predict_proba catalog (self : Worker) (provs : list province) :
  forall n, (sweep_calls predict_proba catalog self n provs <= length provs)%nat.
Proof.
  induction provs as [|row rest IH]; intros n; simpl; [lia|].
  destruct (province_score predict_proba catalog self n row);
    [specialize (IH (S n))|]; lia.
Qed.

Lemma sweep_calls_complete predict_proba catalog (self : Worker)
      (provs : list province) :
  forall n risks,
    sweep predict_proba catalog self n provs = Ok risks ->
    sweep_calls predict_proba catalog self n provs = length provs.
Proof.
  induction provs as [|row rest IH]; intros n risks; simpl; [reflexivity|].
  destruct (province_score predict_proba catalog self n row); cbn [rbind];
    [|discriminate].
  destruct (sweep predict_proba catalog self (S n) rest) as [rs|] eqn:Hrest;
    cbn [rbind]; [|discriminate].
  intros _. f_equal. apply (IH (S n) rs Hrest).
Qed.

(** X7.  Every run closes with [finished], after its outcome: the signals
    it adds are the outcome followed by [finished] -- followed by a second
    [finished] exactly when the nationwide fetch found no events, where
    [run] emits it before returning and the [finally] clause emits it
    again. *)
Theorem every_run_ends_with_finished predict_proba catalog (self : Worker)
        (w : world) :
  exists outcome,
    is_outcome outcome = true /\
    delivered predict_proba catalog self w
    = outcome :: finished ::
      match fetched catalog (calls w) (nationwide_query self) with
      | Ok [] => [finished]
      | _ => []
      end.
Proof.
  unfold delivered. rewrite run_exact. cbn [snd].
  destruct (fetched catalog (calls w) (nationwide_query self)) as [[|ev evs]|e].
  - cbn [emitted]. rewrite drop_app_length. eexists. split; [|reflexivity]. reflexivity.
  - destruct (predict_risk predict_proba (ev :: evs)) as [proba|e].
    + destruct (heap w !! provinces self) as [df|].
      * cbv zeta.
        destruct (sweep predict_proba catalog self (S (calls w)) (rows df));
          cbn [emitted]; rewrite drop_app_length; eexists; (split; [|reflexivity]); reflexivity.
      * cbn [emitted]. rewrite drop_app_length. eexists. split; [|reflexivity]. reflexivity.
    + cbn [emitted]. rewrite drop_app_length. eexists. split; [|reflexivity]. reflexivity.
  - cbn [emitted]. rewrite drop_app_length. eexists. split; [|reflexivity]. reflexivity.
Qed.

(** X8.  A run makes its nationwide request first and then at most one
    request per province: between 1 and 1 + the number of provinces in
    all, exactly 1 when the nationwide fetch fails or finds no events, and
    exactly 1 + the number of provinces when it delivers a result. *)
Theorem run_request_count predict_proba catalog (self : Worker) (w : world)
        (df : GeoDataFrame) :
  heap w !! provinces self = Some df ->
  (S (calls w) <= calls (snd (run predict_proba catalog self w))
   <= S (calls w) + length (rows df))%nat /\
  ((forall ev evs,
      fetched catalog (calls w) (nationwide_query self) <> Ok (ev :: evs)) ->
   calls (snd (run predict_proba catalog self w)) = S (calls w)) /\
  (forall proba evs l,
     In (result proba evs l) (delivered predict_proba catalog self w) ->
     calls (snd (run predict_proba catalog self w))
     = (S (calls w) + length (rows df))%nat).
Proof.
  intros Hdf. unfold delivered. rewrite run_exact, Hdf. cbn [snd].
  pose proof (sweep_calls_le predict_proba catalog self (rows df) (S (calls w)))
    as Hle.
  destruct (fetched catalog (calls w) (nationwide_query self)) as [[|ev evs]|e].
  - cbn [calls emitted]. rewrite drop_app_length.
    split; [lia|]. split; [reflexivity|].
    intros proba evs l [H|[H|[H|[]]]]; discriminate.
  - destruct (predict_risk predict_proba (ev :: evs)) as [proba|e].
    + cbv zeta.
      destruct (sweep predict_proba catalog self (S (calls w)) (rows df))
        as [risks|e] eqn:Hsweep;
        cbn [calls emitted]; rewrite drop_app_length.
      * rewrite (sweep_calls_complete _ _ _ _ _ _ Hsweep).
        split; [lia|]. split; [|reflexivity].
        intros Hno. exfalso. apply (Hno ev evs). reflexivity.
      * split; [lia|]. split.
        -- intros Hno. exfalso. apply (Hno ev evs). reflexivity.
        -- intros proba' evs' l [H|[H|[]]]; discriminate.
    + cbn [calls emitted]. rewrite drop_app_length.
      split; [lia|]. split; [reflexivity|].
      intros proba evs' l [H|[H|[]]]; discriminate.
  - cbn [calls emitted]. rewrite drop_app_length.
    split; [lia|]. split; [reflexivity|].
    intros proba evs l [H|[H|[]]]; discriminate.
Qed.

Lemma run_request_count_witness :
  calls (snd (run sample_classifier catalog_up sample_worker sample_world)) = 4%nat /\
  calls (snd (run sample_classifier catalog_first_province_down
                  sample_worker sample_world)) = 2%nat.
Proof.
  destruct (run_request_count sample_classifier catalog_up sample_worker
              sample_world sample_provinces eq_refl) as (_ & _ & Hall).
  destruct (run_request_count sample_classifier catalog_first_province_down
              sample_worker sample_world sample_provinces eq_refl)
    as ((Hlo & Hhi) & _ & _).
  split.
  - eapply Hall. vm_compute. left. reflexivity.
  - vm_compute. reflexivity.
Defined.



(** ** Provinces are scored independently *)

(** X10.  The risk a delivered result gives a province depends only on
    what the catalog answered to that province's own request: two runs from
    the same state, against catalogs that agree on that request, give the
    province the same risk whatever the other requests returned. *)
Theorem province_risk_depends_on_its_own_request predict_proba
        (catalog1 catalog2 : nat -> params -> raises pyval)
        (self : Worker) (w : world) (df : GeoDataFrame) (k : nat)
        (row : province) proba1 evs1 l1 proba2 evs2 l2 :
  heap w !! provinces self = Some df ->
  rows df !! k = Some row ->
  catalog1 (S (calls w) + k)%nat (province_query self row)
  = catalog2 (S (calls w) + k)%nat (province_query self row) ->
  In (result proba1 evs1 l1) (delivered predict_proba catalog1 self w) ->
  In (result proba2 evs2 l2) (delivered predict_proba catalog2 self w) ->
  exists r risks1 risks2,
    heap (snd (run predict_proba catalog1 self w)) !! l1
    = Some {| rows := rows df; risk := Some risks1 |} /\
    heap (snd (run predict_proba catalog2 self w)) !! l2
    = Some {| rows := rows df; risk := Some risks2 |} /\
    risks1 !! k = Some r /\
    risks2 !! k = Some r.
Proof.
  intros Hdf Hrow Hsame Hin1 Hin2.
  destruct (resultdelivered_inv _ _ _ _ _ _ _ Hin1)
    as (-> & df1 & risks1 & _ & -> & _ & _ & Hdf1 & Hsweep1).
  destruct (resultdelivered_inv _ _ _ _ _ _ _ Hin2)
    as (-> & df2 & risks2 & _ & -> & _ & _ & Hdf2 & Hsweep2).
  rewrite Hdf in Hdf1, Hdf2. injection Hdf1 as <-. injection Hdf2 as <-.
  destruct (sweep_lookup _ _ _ _ _ _ _ _ Hsweep1 Hrow) as (r1 & Hr1 & Hs1).
  destruct (sweep_lookup _ _ _ _ _ _ _ _ Hsweep2 Hrow) as (r2 & Hr2 & Hs2).
  unfold province_score, fetched in Hs1, Hs2. rewrite Hsame in Hs1.
  rewrite Hs1 in Hs2. injection Hs2 as <-.
  exists r1, risks1, risks2.
  split; [apply list_lookup_middle; reflexivity|].
  split; [apply list_lookup_middle; reflexivity|].
  split; assumption.
Qed.

Lemma province_risk_depends_on_its_own_request_witness :
  exists r risks1 risks2,
    heap (snd (run sample_classifier catalog_up sample_worker sample_world)) !! 1%nat
    = Some {| rows := rows sample_provinces; risk := Some risks1 |} /\
    heap (snd (run sample_classifier catalog_up_elsewhere sample_worker
                   sample_world)) !! 1%nat
    = Some {| rows := rows sample_provinces; risk := Some risks2 |} /\
    risks1 !! 0%nat = Some r /\
    risks2 !! 0%nat = Some r.
Proof.
  assert (H1 : exists proba evs,
             delivered sample_classifier catalog_up sample_worker sample_world
             = [result proba evs 1%nat; finished])
    by (eexists; eexists; vm_compute; reflexivity).
  assert (H2 : exists proba evs,
             delivered sample_classifier catalog_up_elsewhere sample_worker
                       sample_world
             = [result proba evs 1%nat; finished])
    by (eexists; eexists; vm_compute; reflexivity).
  destruct H1 as (proba1 & evs1 & H1). destruct H2 as (proba2 & evs2 & H2).
  apply (province_risk_depends_on_its_own_request sample_classifier
           catalog_up catalog_up_elsewhere sample_worker sample_world
           sample_provinces 0
           {| NAME_1 := "Ankara"; bounds := (31, 39, 34, 41) |}
           proba1 evs1 1%nat proba2 evs2 1%nat).
  - reflexivity.
  - reflexivity.
  - reflexivity.
  - rewrite H1. left. reflexivity.
  - rewrite H2. left. reflexivity.
Defined.

(** ** The threshold and the display *)

(** X11.  The threshold a [Worker] is built with plays no part in its run:
    two workers that differ only in it end in the same state with the same
    signals. *)
Theorem run_ignores_threshold predict_proba catalog (self self' : Worker)
        (w : world) :
  provinces self = provinces self' ->
  start self = start self' ->
  end_ self = end_ self' ->
  run predict_proba catalog self w = run predict_proba catalog self' w.
Proof.
  destruct self as [p s e t], self' as [p' s' e' t']. cbn.
  intros -> -> ->. reflexivity.
Qed.

Lemma run_ignores_threshold_witness :
  run sample_classifier catalog_up sample_worker sample_world
  = run sample_classifier catalog_up
        {| provinces := 0%nat; start := 1700000000; end_ := 1702592000;
           threshold := 90%Z |}
        sample_world.
Proof.
  apply run_ignores_threshold; reflexivity.
Defined.

Lemma plot_timeseries_parsed (events : list event) :
  Forall parsed_event events ->
  plot_timeseries events
  = Ok (map (raw_value "time") events, map (raw_value "mag") events).
Proof.
  intros Hall. unfold plot_timeseries.
  rewrite (column_raw_values "time"), (column_raw_values "mag").
  - reflexivity.
  - intros e He. rewrite Forall_forall in Hall.
    destruct (Hall e (proj2 (list_elem_of_In _ _) He)) as (_ & _ & mag & Hmag & _).
    eauto.
  - intros e He. rewrite Forall_forall in Hall.
    destruct (Hall e (proj2 (list_elem_of_In _ _) He)) as (_ & (secs & Hsecs) & _).
    eauto.
Qed.

(** X12.  The events a delivered result carries can always be charted:
    [plot_timeseries] finds a [time] and a [mag] in each of them, so its
    two series have one entry per event, every time a datetime and every
    magnitude something other than [None]. *)
Theorem delivered_events_can_be_plotted predict_proba catalog (self : Worker)
        (w : world) proba evs l :
  In (result proba evs l) (delivered predict_proba catalog self w) ->
  exists times mags,
    plot_timeseries evs = Ok (times, mags) /\
    length times = length evs /\
    length mags = length evs /\
    (forall t, In t times -> exists secs, t = PDatetime secs) /\
    (forall m, In m mags -> is_none m = false).
Proof.
  intros Hin.
  destruct (resultdelivered_inv _ _ _ _ _ _ _ Hin)
    as (_ & df & risks & _ & _ & Hfetch & _).
  assert (Hall : Forall parsed_event evs).
  { unfold fetched in Hfetch.
    destruct (catalog (calls w) (nationwide_query self)) as [data|];
      [|discriminate].
    apply (parse_earthquake_data_events data evs Hfetch). }
  exists (map (raw_value "time") evs), (map (raw_value "mag") evs).
  split; [apply plot_timeseries_parsed, Hall|].
  rewrite !length_map. split; [reflexivity|]. split; [reflexivity|].
  rewrite Forall_forall in Hall. split.
  - intros t Ht. apply in_map_iff in Ht. destruct Ht as (e & <- & He).
    destruct (Hall e (proj2 (list_elem_of_In _ _) He)) as (_ & (secs & Hsecs) & _).
    exists secs. unfold raw_value. rewrite Hsecs. reflexivity.
  - intros m Hm. apply in_map_iff in Hm. destruct Hm as (e & <- & He).
    destruct (Hall e (proj2 (list_elem_of_In _ _) He)) as (_ & _ & mag & Hmag & Hnone).
    unfold raw_value. rewrite Hmag. exact Hnone.
Qed.

Lemma delivered_events_can_be_plotted_witness :
  exists proba evs times mags,
    delivered sample_classifier catalog_up sample_worker sample_world
    = [result proba evs 1%nat; finished] /\
    plot_timeseries evs = Ok (times, mags) /\
    length times = length evs.
Proof.
  assert (H : exists proba evs,
            delivered sample_classifier catalog_up sample_worker sample_world
            = [result proba evs 1%nat; finished])
    by (eexists; eexists; vm_compute; reflexivity).
  destruct H as (proba & evs & H).
  destruct (delivered_events_can_be_plotted sample_classifier catalog_up
              sample_worker sample_world proba evs 1%nat)
    as (times & mags & Hplot & Hlen & _).
  - rewrite H. left. reflexivity.
  - exists proba, evs, times, mags. auto.
Defined.

(** X13.  The colour of the risk label follows the slider as it stands
    when the result arrives: whatever is shown red at one threshold is red
    at every lower one, and for a classifier that outputs probabilities a
    delivered risk is red when the slider is at 0 and, when the slider is
    at 100, only if it is exactly 100. *)
Theorem risk_colour_follows_slider predict_proba catalog (self : Worker)
        (w : world) proba evs l :
  probability_classifier predict_proba ->
  In (result proba evs l) (delivered predict_proba catalog self w) ->
  risk_colour proba 0 = "#e74c3c" /\
  (risk_colour proba 100 = "#e74c3c" -> proba == 100) /\
  (forall t t' : Z,
     (t' <= t)%Z ->
     risk_colour proba t = "#e74c3c" -> risk_colour proba t' = "#e74c3c").
Proof.
  intros Hprob Hin.
  destruct (resultdelivered_inv _ _ _ _ _ _ _ Hin)
    as (_ & df & risks & _ & _ & _ & Hp & _).
  destruct (predict_risk_range _ Hprob _ _ Hp) as [Hlo Hhi].
  unfold risk_colour. split; [|split].
  - destruct (Qle_bool (inject_Z 0) proba) eqn:Hle; [reflexivity|].
    apply Qle_bool_iff in Hlo. change (inject_Z 0) with 0 in Hle. congruence.
  - destruct (Qle_bool (inject_Z 100) proba) eqn:Hle; [|discriminate].
    intros _. apply Qle_bool_iff in Hle. change (inject_Z 100) with 100 in Hle.
    apply Qle_antisym; assumption.
  - intros t t' Htt.
    destruct (Qle_bool (inject_Z t) proba) eqn:Hle; [|discriminate].
    intros _. apply Qle_bool_iff in Hle.
    assert (Hle' : Qle_bool (inject_Z t') proba = true).
    { apply Qle_bool_iff. apply Qle_trans with (inject_Z t); [|exact Hle].
      rewrite <- Zle_Qle. exact Htt. }
    rewrite Hle'. reflexivity.
Qed.

Lemma risk_colour_follows_slider_witness :
  exists proba evs,
    delivered sample_classifier catalog_up sample_worker sample_world
    = [result proba evs 1%nat; finished] /\
    risk_colour proba 0 = "#e74c3c".
Proof.
  assert (H : exists proba evs,
            delivered sample_classifier catalog_up sample_worker sample_world
            = [result proba evs 1%nat; finished])
    by (eexists; eexists; vm_compute; reflexivity).
  destruct H as (proba & evs & H).
  exists proba, evs. split; [exact H|].
  apply (risk_colour_follows_slider sample_classifier catalog_up sample_worker
           sample_world proba evs 1%nat sample_classifier_probability).
  rewrite H. left. reflexivity.
Defined.

(** ** The frame parsers of [config_manager.py] and [model_handler.py] *)

Lemma rmap_rows {A B} (f : A -> raises B) (l : list A) (ys : list B) :
  rmap f l = Ok ys ->
  length ys = length l /\
  forall i y, ys !! i = Some y -> exists x, l !! i = Some x /\ f x = Ok y.
Proof.
  revert ys. induction l as [|x l IH]; intros ys; simpl.
  - intros [= <-]. split; [reflexivity|]. intros i y Hy. discriminate.
  - destruct (f x) as [y0|] eqn:Hx; cbn [rbind]; [|discriminate].
    destruct (rmap f l) as [ys0|]; cbn [rbind]; [|discriminate].
    destruct (IH ys0 eq_refl) as (Hlen & Hrows).
    intros [= <-]. split; [simpl; congruence|].
    intros [|i] y Hy; simpl in *.
    + injection Hy as <-. eauto.
    + apply Hrows, Hy.
Qed.

Lemma py_getitem_dict (d : pyval) (k : string) (v : pyval) :
  py_getitem d k = Ok v ->
  exists items, d = PDict items /\ lookup_key k items = Some v.
Proof.
  destruct d; try discriminate. simpl.
  destruct (lookup_key k items) eqn:Hk; [|discriminate].
  intros [= <-]. eauto.
Qed.

Lemma data_row_fields (feature : pyval) (row : event) :
  EarthquakePredictor.data_row feature = Ok row ->
  map fst row = ["timestamp"; "latitude"; "longitude"; "depth_km";
                 "magnitude"; "location"] /\
  lookup_key "magnitude" row = lookup_key "mag" (record_properties feature) /\
  lookup_key "location" row = lookup_key "place" (record_properties feature).
Proof.
  unfold EarthquakePredictor.data_row.
  destruct (py_getitem feature "properties") as [props|] eqn:Hprops;
    cbn [rbind]; [|discriminate].
  destruct (py_getitem feature "geometry") as [geometry|]; cbn [rbind];
    [|discriminate].
  destruct (py_getitem geometry "coordinates") as [coords|]; cbn [rbind];
    [|discriminate].
  destruct (py_getitem props "time") as [time|]; cbn [rbind]; [|discriminate].
  destruct (timestamp_of_millis time) as [timestamp|]; cbn [rbind];
    [|discriminate].
  destruct (py_subscript coords 1) as [latitude|]; cbn [rbind]; [|discriminate].
  destruct (py_subscript coords 0) as [longitude|]; cbn [rbind]; [|discriminate].
  destruct (py_subscript coords 2) as [depth_km|]; cbn [rbind]; [|discriminate].
  destruct (py_getitem props "mag") as [magnitude|] eqn:Hmag; cbn [rbind];
    [|discriminate].
  destruct (py_getitem props "place") as [location|] eqn:Hplace; cbn [rbind];
    [|discriminate].
  intros [= <-]. split; [reflexivity|].
  destruct (py_getitem_dict _ _ _ Hprops) as (items & -> & Hitems).
  destruct (py_getitem_dict _ _ _ Hmag) as (pitems & -> & Hm).
  destruct (py_getitem_dict _ _ _ Hplace) as (pitems' & [= <-] & Hp).
  unfold record_properties. rewrite Hitems, Hm, Hp. split; reflexivity.
Qed.

(** X14.  [EarthquakePredictor._parse_data] filters nothing: when it
    succeeds on a list of records the frame has exactly one row per record,
    in order, each with the six columns timestamp, latitude, longitude,
    depth_km, magnitude, location, the magnitude and the place being the
    record's own -- a [null] magnitude included. *)
Theorem parse_data_keeps_every_record (features : list pyval) (rows : list event) :
  EarthquakePredictor._parse_data (PList features) = Ok rows ->
  length rows = length features /\
  forall i row,
    rows !! i = Some row ->
    exists feature,
      features !! i = Some feature /\
      map fst row = ["timestamp"; "latitude"; "longitude"; "depth_km";
                     "magnitude"; "location"] /\
      lookup_key "magnitude" row = lookup_key "mag" (record_properties feature) /\
      lookup_key "location" row = lookup_key "place" (record_properties feature).
Proof.
  unfold EarthquakePredictor._parse_data. cbn [py_iter rbind]. intros Hrows.
  destruct (rmap_rows _ _ _ Hrows) as (Hlen & Hall).
  split; [exact Hlen|]. intros i row Hrow.
  destruct (Hall i row Hrow) as (feature & Hf & Hparse).
  exists feature. split; [exact Hf|]. apply data_row_fields, Hparse.
Qed.

Lemma parse_data_keeps_every_record_witness :
  exists rows,
    EarthquakePredictor._parse_data (PList [record_null_mag; record_null_mag])
    = Ok rows /\
    length rows = 2%nat /\
    forall row, rows !! 0%nat = Some row ->
                lookup_key "magnitude" row = Some PNone.
Proof.
  destruct (EarthquakePredictor._parse_data
              (PList [record_null_mag; record_null_mag])) as [rows|] eqn:Hrows;
    [|vm_compute in Hrows; discriminate].
  destruct (parse_data_keeps_every_record _ _ Hrows) as (Hlen & Hall).
  exists rows. split; [reflexivity|]. split; [exact Hlen|].
  intros row Hrow.
  destruct (Hall 0%nat row Hrow) as (feature & Hf & _ & Hmag & _).
  injection Hf as <-. rewrite Hmag. reflexivity.
Defined.

Lemma quake_row_fields (feature : pyval) (row : event) :
  ConfigManager.quake_row feature = Ok row ->
  map fst row = ["timestamp"; "latitude"; "longitude"; "depth_km";
                 "magnitude"; "location"; "id"] /\
  lookup_key "magnitude" row = lookup_key "mag" (record_properties feature) /\
  lookup_key "location" row = lookup_key "place" (record_properties feature).
Proof.
  unfold ConfigManager.quake_row.
  destruct (py_getitem feature "properties") as [props|] eqn:Hprops;
    cbn [rbind]; [|discriminate].
  destruct (py_getitem feature "geometry") as [geometry|]; cbn [rbind];
    [|discriminate].
  destruct (py_getitem geometry "coordinates") as [coords|]; cbn [rbind];
    [|discriminate].
  destruct (py_getitem props "time") as [time|]; cbn [rbind]; [|discriminate].
  destruct (timestamp_of_millis time) as [timestamp|]; cbn [rbind];
    [|discriminate].
  destruct (py_subscript coords 1) as [latitude|]; cbn [rbind]; [|discriminate].
  destruct (py_subscript coords 0) as [longitude|]; cbn [rbind]; [|discriminate].
  destruct (py_subscript coords 2) as [depth_km|]; cbn [rbind]; [|discriminate].
  destruct (py_getitem props "mag") as [magnitude|] eqn:Hmag; cbn [rbind];
    [|discriminate].
  destruct (py_getitem props "place") as [location|] eqn:Hplace; cbn [rbind];
    [|discriminate].
  destruct (py_getitem feature "id") as [id|]; cbn [rbind]; [|discriminate].
  intros [= <-]. split; [reflexivity|].
  destruct (py_getitem_dict _ _ _ Hprops) as (items & -> & Hitems).
  destruct (py_getitem_dict _ _ _ Hmag) as (pitems & -> & Hm).
  destruct (py_getitem_dict _ _ _ Hplace) as (pitems' & [= <-] & Hp).
  unfold record_properties. rewrite Hitems, Hm, Hp. split; reflexivity.
Qed.

(** X15.  [ConfigManager._parse_quake_data] filters nothing either: on
    success the frame has one row per record, in order, with the seven
    columns timestamp, latitude, longitude, depth_km, magnitude, location,
    id, the magnitude and the place being the record's own. *)
Theorem parse_quake_data_keeps_every_record (features : list pyval)
        (rows : list event) :
  ConfigManager._parse_quake_data (PList features) = Ok rows ->
  length rows = length features /\
  forall i row,
    rows !! i = Some row ->
    exists feature,
      features !! i = Some feature /\
      map fst row = ["timestamp"; "latitude"; "longitude"; "depth_km";
                     "magnitude"; "location"; "id"] /\
      lookup_key "magnitude" row = lookup_key "mag" (record_properties feature) /\
      lookup_key "location" row = lookup_key "place" (record_properties feature).
Proof.
  unfold ConfigManager._parse_quake_data. cbn [py_iter rbind]. intros Hrows.
  destruct (rmap_rows _ _ _ Hrows) as (Hlen & Hall).
  split; [exact Hlen|]. intros i row Hrow.
  destruct (Hall i row Hrow) as (feature & Hf & Hparse).
  exists feature. split; [exact Hf|]. apply quake_row_fields, Hparse.
Qed.

Lemma parse_quake_data_keeps_every_record_witness :
  exists rows,
    ConfigManager._parse_quake_data (PList [record_null_mag]) = Ok rows /\
    length rows = 1%nat.
Proof.
  destruct (ConfigManager._parse_quake_data (PList [record_null_mag]))
    as [rows|] eqn:Hrows; [|vm_compute in Hrows; discriminate].
  exists rows. split; [reflexivity|].
  exact (proj1 (parse_quake_data_keeps_every_record _ _ Hrows)).
Defined.

(** ** The two fetchers that swallow their exceptions *)






(** ** [optimize_visualization] *)


Lemma every_nth_count {A} (step : nat) (rows : list A) :
  forall skip,
    (skip < step)%nat ->
    (step * length (EarthquakePredictor.every_nth step skip rows) + skip
     <= length rows + step - 1)%nat.
Proof.
  induction rows as [|row rest IH]; intros skip Hskip; simpl.
  - lia.
  - destruct skip as [|skip'].
    + specialize (IH (pred step)). simpl. nia.
    + specialize (IH skip'). nia.
Qed.

Lemma default_step_covers_a_third (n : nat) :
  (n <= 3 * EarthquakePredictor.step_size 1775 n)%nat.
Proof.
  unfold EarthquakePredictor.step_size.
  assert (H : (Z.of_nat n <= 3 * Z.max 1 (Z.of_nat n * 1000 / 1775))%Z).
  { pose proof (Z.div_le_lower_bound (Z.of_nat n * 1000) 1775) as _.
    destruct (Z_lt_le_dec (Z.of_nat n) 4) as [Hsmall|Hbig]; [lia|].
    assert (Hq : (Z.of_nat n * 1000
                  < 1775 * (Z.of_nat n * 1000 / 1775) + 1775)%Z).
    { pose proof (Z.mul_succ_div_gt (Z.of_nat n * 1000) 1775). lia. }
    destruct (Z.eq_dec (Z.of_nat n) 4%Z) as [Heq|Hne].
    - rewrite Heq. vm_compute. discriminate.
    - lia. }
  lia.
Qed.


Lemma step_size_positive (resolution : positive) (n : nat) :
  (0 < EarthquakePredictor.step_size resolution n)%nat.
Proof. unfold EarthquakePredictor.step_size. lia. Qed.



(** X19.  With the default [graphical_geometry] of 1775 the thinning
    leaves at most three rows, however many it is given (in exact
    arithmetic): the step grows with the number of rows. *)
Theorem default_resolution_keeps_at_most_three_rows {A} (raw_data : list A) :
  (length (EarthquakePredictor.optimize_visualization 1775 raw_data) <= 3)%nat.
Proof.
  unfold EarthquakePredictor.optimize_visualization.
  destruct raw_data as [|row rest]; [simpl; lia|].
  pose proof (step_size_positive 1775 (length (row :: rest))) as Hpos.
  pose proof (default_step_covers_a_third (length (row :: rest))) as Hthird.
  set (s := EarthquakePredictor.step_size 1775 (length (row :: rest))) in *.
  pose proof (every_nth_count s (row :: rest) 0 Hpos).
  nia.
Qed.

(** ** The button's guard *)

Lemma button_guard_step (a : EarlyWarningApp) (ev : gui_event) :
  ev <> timer_timeout ->
  in_flight a = 0%nat \/ (in_flight a = 1%nat /\ analyze_btn_enabled a = false) ->
  in_flight (dispatch a ev) = 0%nat \/
  (in_flight (dispatch a ev) = 1%nat /\ analyze_btn_enabled (dispatch a ev) = false).
Proof.
  intros Hev Hinv. destruct ev; [| congruence | |]; simpl.
  - destruct (analyze_btn_enabled a) eqn:Hbtn; simpl.
    + destruct Hinv as [->|[_ Hoff]]; [right; split; reflexivity|congruence].
    + destruct Hinv as [H0|[H1 _]]; [left; exact H0|right; split; assumption].
  - left. destruct Hinv as [->|[-> _]]; reflexivity.
  - left. destruct Hinv as [->|[-> _]]; reflexivity.
Qed.

(** X20.  As long as the timer does not fire, the button's guard is
    enough: after any sequence of button presses and delivered outcomes
    at most one run is in flight, and while one is the button is
    disabled. *)
Theorem button_alone_never_overlaps_runs (evs : list gui_event) :
  ~ In timer_timeout evs ->
  in_flight (dispatch_all app_init evs) = 0%nat \/
  (in_flight (dispatch_all app_init evs) = 1%nat /\
   analyze_btn_enabled (dispatch_all app_init evs) = false).
Proof.
  unfold dispatch_all.
  assert (Hgen : forall a,
             ~ In timer_timeout evs ->
             in_flight a = 0%nat \/
             (in_flight a = 1%nat /\ analyze_btn_enabled a = false) ->
             in_flight (fold_left dispatch evs a) = 0%nat \/
             (in_flight (fold_left dispatch evs a) = 1%nat /\
              analyze_btn_enabled (fold_left dispatch evs a) = false)).
  { induction evs as [|ev evs IH]; intros a Hno Hinv; [exact Hinv|].
    simpl. apply IH.
    - intros Hin. apply Hno. right. exact Hin.
    - apply button_guard_step; [|exact Hinv].
      intros ->. apply Hno. left. reflexivity. }
  intros Hno. apply Hgen; [exact Hno|]. left. reflexivity.
Qed.

Lemma button_alone_never_overlaps_runs_witness :
  in_flight (dispatch_all app_init
               [button_pressed; button_pressed; worker_error; button_pressed])
  = 1%nat.
Proof.
  destruct (button_alone_never_overlaps_runs
              [button_pressed; button_pressed; worker_error; button_pressed])
    as [H0|[H1 _]].
  - intros [H|[H|[H|[H|[]]]]]; discriminate.
  - vm_compute in H0. discriminate.
  - exact H1.
Defined.

(** ** More on the parser and the scorer *)

(** X21.  A record without a magnitude -- the key absent or [null] -- is
    skipped whatever its coordinates are, even [null] or missing: the
    length of the coordinates is only looked at once a magnitude has been
    found. *)
Theorem record_without_magnitude_is_skipped
        (items props geometry : list (string * pyval)) :
  lookup_key "properties" items = Some (PDict props) ->
  lookup_key "geometry" items = Some (PDict geometry) ->
  lookup_key "mag" props = None \/ lookup_key "mag" props = Some PNone ->
  parse_feature (PDict items) = Ok None.
Proof.
  intros Hprops Hgeom Hmag. unfold parse_feature, py_get.
  rewrite Hprops, Hgeom. cbn [rbind].
  destruct (lookup_key "coordinates" geometry); cbn [rbind];
    destruct Hmag as [-> | ->]; reflexivity.
Qed.

Lemma record_without_magnitude_is_skipped_witness :
  parse_feature
    (PDict [("properties", PDict [("mag", PNone); ("time", PStr "n/a")]);
            ("geometry", PDict [("coordinates", PNone)])])
  = Ok None.
Proof.
  apply (record_without_magnitude_is_skipped _
           [("mag", PNone); ("time", PStr "n/a")] [("coordinates", PNone)]).
  - reflexivity.
  - reflexivity.
  - right. reflexivity.
Defined.




(** ** What a run asks the catalog *)

Lemma sweep_same_answers predict_proba
      (catalog1 catalog2 : nat -> params -> raises pyval) (self : Worker)
      (provs : list province) :
  (forall n row, catalog1 n (province_query self row)
                 = catalog2 n (province_query self row)) ->
  forall n,
    sweep predict_proba catalog1 self n provs
    = sweep predict_proba catalog2 self n provs /\
    sweep_calls predict_proba catalog1 self n provs
    = sweep_calls predict_proba catalog2 self n provs.
Proof.
  intros Hsame. induction provs as [|row rest IH]; intros n; simpl.
  - split; reflexivity.
  - assert (Hscore : province_score predict_proba catalog1 self n row
                     = province_score predict_proba catalog2 self n row)
      by (unfold province_score, fetched; rewrite Hsame; reflexivity).
    rewrite Hscore. destruct (IH (S n)) as [-> ->]. split; reflexivity.
Qed.

(** X23.  A run asks the catalog only for its own time window and for
    magnitudes from 1 up: two catalogs that answer alike every query with
    the worker's [start], [end] and a minimum magnitude of 1 give the same
    run, however they differ on other queries. *)
Theorem run_queries_only_its_window predict_proba
        (catalog1 catalog2 : nat -> params -> raises pyval) (self : Worker)
        (w : world) :
  (forall n q,
     starttime q = start self ->
     endtime q = end_ self ->
     minmagnitude q = 1 ->
     catalog1 n q = catalog2 n q) ->
  run predict_proba catalog1 self w = run predict_proba catalog2 self w.
Proof.
  intros Hsame. rewrite !run_exact. unfold fetched.
  rewrite (Hsame (calls w) (nationwide_query self)) by reflexivity.
  destruct (let! data := catalog2 (calls w) (nationwide_query self) in
            parse_earthquake_data data) as [[|ev evs]|e]; [reflexivity| |reflexivity].
  destruct (predict_risk predict_proba (ev :: evs)); [|reflexivity].
  destruct (heap w !! provinces self) as [df|]; [|reflexivity].
  destruct (sweep_same_answers predict_proba catalog1 catalog2 self (rows df))
    with (n := S (calls w)) as [-> ->]; [|reflexivity].
  intros n row. apply Hsame; unfold province_query;
    destruct (bounds row) as [[[minx miny] maxx] maxy]; reflexivity.
Qed.

Lemma run_queries_only_its_window_witness :
  run sample_classifier catalog_up sample_worker sample_world
  = run sample_classifier catalog_up_floor_one sample_worker sample_world.
Proof.
  apply run_queries_only_its_window.
  intros n q _ _ Hfloor. unfold catalog_up_floor_one. rewrite Hfloor.
  reflexivity.
Defined.

(** ** What a well-formed record becomes *)

(** X24.  A record with a magnitude, at least three coordinates and a
    usable [time] yields an event, appended to the list, that carries
    exactly the record's values: the instant of its [time], its magnitude,
    its third coordinate as depth, and under each of nst, gap, dmin, rms
    what the record holds under that key -- [null] included -- or 0 when
    the record has no such key. *)
Theorem well_formed_record_becomes_its_event (feature : pyval) (secs : Q) :
  has_magnitude feature = true ->
  (3 <= length (record_coordinates feature))%nat ->
  usable_time feature = Some secs ->
  exists e,
    parse_feature feature = Ok (Some e) /\
    (forall rest events,
       parse_features rest = Ok events ->
       parse_features (feature :: rest) = Ok (e :: events)) /\
    lookup_key "time" e = Some (PDatetime secs) /\
    lookup_key "mag" e = lookup_key "mag" (record_properties feature) /\
    lookup_key "depth" e = nth_error (record_coordinates feature) 2 /\
    forall k,
      In k ["nst"; "gap"; "dmin"; "rms"] ->
      lookup_key k e
      = Some (match lookup_key k (record_properties feature) with
              | Some v => v
              | None => PNum 0
              end).
Proof.
  intros Hmag Hlen Htime.
  destruct (parse_feature_well_formed feature secs Hmag Hlen Htime)
    as (mag & depth & Hm & _ & Hd & Hparse).
  eexists. split; [exact Hparse|]. split; [|split; [|split; [|split]]].
  - intros rest events Hrest. cbn [parse_features].
    rewrite Hparse, Hrest. reflexivity.
  - reflexivity.
  - rewrite Hm. reflexivity.
  - rewrite Hd. reflexivity.
  - intros k [<-|[<-|[<-|[<-|[]]]]]; reflexivity.
Qed.

Lemma well_formed_record_becomes_its_event_witness :
  exists e,
    parse_feature record_null_nst = Ok (Some e) /\
    lookup_key "time" e = Some (PDatetime 1700000120) /\
    lookup_key "depth" e = Some (PNum 5) /\
    lookup_key "nst" e = Some PNone /\
    lookup_key "gap" e = Some (PNum 120).
Proof.
  destruct (well_formed_record_becomes_its_event record_null_nst 1700000120)
    as (e & Hparse & _ & Htime & _ & Hdepth & Hanc).
  - reflexivity.
  - simpl. lia.
  - reflexivity.
  - exists e. split; [exact Hparse|]. split; [exact Htime|].
    split; [exact Hdepth|].
    split; [apply (Hanc "nst")|apply (Hanc "gap")]; cbn; tauto.
Defined.
